(** * Trip Itinerary Planner: the backend's routers and weather client

    A shallow embedding of [backend/app/services/weather_client.py],
    [backend/app/routers/trips.py] and [backend/app/routers/weather.py],
    and the properties the specification states about them.

    Conventions of the embedding.
    - Python [int] is [Z]; a finite Python [float] is the rational it
      denotes ([Q]), so comparisons against the integer thresholds are exact.
    - A Python exception is a constructor of [exn]; a computation that may
      raise lives in [py].  An exception that leaves a route handler other
      than [HTTPException] is answered by the framework with status 500.
    - A relational table is the list of its rows in storage order;
      [first()] is the first row of the list that passes the filter.
    - The JSON bodies of the two providers are typed records whose keys may
      be absent ([option]); arrays are lists. *)

From Stdlib Require Import List ZArith QArith Lqa String Bool Lia.
From Stdlib Require Import Sorted Permutation.
Import ListNotations.

Local Open Scope string_scope.
Local Open Scope list_scope.
Local Open Scope Z_scope.

(** ** Python results and exceptions *)

Inductive exn : Type :=
| HTTPException (status_code : Z) (detail : string)
| IndexError
| KeyError
| RequestError
| HTTPStatusError
| JSONDecodeError.

Inductive py (A : Type) : Type :=
| Return (a : A)
| Raise (e : exn).
Arguments Return {A} a.
Arguments Raise {A} e.

Definition py_bind {A B} (m : py A) (k : A -> py B) : py B :=
  match m with
  | Return a => k a
  | Raise e => Raise e
  end.

(** [try: body / except Exception: handler]. *)
Definition try_except {A} (body : py A) (handler : exn -> py A) : py A :=
  match body with
  | Return a => Return a
  | Raise e => handler e
  end.

Declare Scope py_scope.
Delimit Scope py_scope with py.
Notation "x <- m ;; k" := (py_bind m (fun x => k))
  (at level 61, m at next level, right associativity) : py_scope.
Notation "m ;;; k" := (py_bind m (fun _ => k))
  (at level 61, right associativity) : py_scope.

(** [l[idx]] on a list: [IndexError] out of range. *)
Definition list_get {A} (l : list A) (idx : nat) : py A :=
  match nth_error l idx with
  | Some x => Return x
  | None => Raise IndexError
  end.

(** [d[key]] on a dict whose key may be absent: [KeyError]. *)
Definition dict_get {A} (field : option A) : py A :=
  match field with
  | Some x => Return x
  | None => Raise KeyError
  end.

(** [d.get(key, default)]. *)
Definition dict_get_default {A} (field : option A) (default : A) : A :=
  match field with
  | Some x => x
  | None => default
  end.

(** The status line the framework sends for a handler's outcome. *)
Definition response_status {A} (success : Z) (r : py A) : Z :=
  match r with
  | Return _ => success
  | Raise (HTTPException code _) => code
  | Raise _ => 500
  end.

(** [datetime.date] and [datetime.time]. *)
Record date : Type := mk_date { year : Z; month : Z; day : Z }.
Record time : Type := mk_time { hour : Z; minute : Z; second : Z }.

(** [int(x)] on a number: truncation towards zero. *)
Definition py_int (x : Q) : Z := Z.quot (Qnum x) (Z.pos (Qden x)).

(** ** services/weather_client.py *)

Module WeatherClient.

(** What the network gives back to [client.get]: nothing (a transport
    failure), or a response with a status and a body that parses or not. *)
Record Response (A : Type) : Type :=
  mk_response { status_code : Z; json_body : option A }.
Arguments mk_response {A}.
Arguments status_code {A}.
Arguments json_body {A}.

Definition client_get {A} (net : option (Response A)) : py (Response A) :=
  match net with
  | Some resp => Return resp
  | None => Raise RequestError
  end.

Definition raise_for_status {A} (resp : Response A) : py unit :=
  if (200 <=? status_code resp) && (status_code resp <=? 299)
  then Return tt
  else Raise HTTPStatusError.

Definition json {A} (resp : Response A) : py A :=
  match json_body resp with
  | Some data => Return data
  | None => Raise JSONDecodeError
  end.

(** The geocoding provider's body. *)
Record GeoResult : Type :=
  mk_geo_result { latitude : option Q; longitude : option Q }.
Record GeoData : Type := mk_geo_data { results : option (list GeoResult) }.

(** The forecast provider's body. *)
Record Daily : Type := mk_daily {
  time_ : option (list date);
  temperature_2m_max : option (list Q);
  temperature_2m_min : option (list Q);
  precipitation_probability_max : option (list Q) }.
Record ForecastData : Type := mk_forecast_data { daily : option Daily }.

Definition empty_daily : Daily := mk_daily None None None None.

(** One entry of the list [fetch_daily_forecast] returns. *)
Record ForecastDay : Type := mk_day {
  date_ : date;
  temp_max : Q;
  temp_min : Q;
  precip_prob : Z;
  summary : string;
  advice : string }.

Definition advice_clear : string :=
  "Good weather – great day for walking and outdoor plans.".
Definition advice_rain : string :=
  "Heavy rain expected – plan indoor activities or rideshares.".
Definition advice_showers : string :=
  "Chance of showers – keep an umbrella handy and have a backup indoor option.".
Definition advice_hot : string :=
  "Very hot – schedule outdoor activities early and stay hydrated.".
Definition advice_cold : string :=
  "Cold weather – bring layers and keep walks shorter.".

(** [geocode_city], lines 7-21.  [net] is the provider's answer to the
    request for [name]. *)
Definition geocode_city (name : string) (net : option (Response GeoData))
  : py (option (Q * Q)) :=
  try_except
    (resp <- client_get net ;;
     raise_for_status resp ;;;
     data <- json resp ;;
     let results := match results data with
                    | Some (r :: rs) => r :: rs
                    | _ => []
                    end in
     match results with
     | [] => Return None
     | _ =>
         first <- list_get results 0 ;;
         lat <- dict_get (latitude first) ;;
         lon <- dict_get (longitude first) ;;
         Return (Some (lat, lon))
     end)%py
    (fun _ => Return None).

(** Lines 52-63: the summary and advice of one day, from the
    precipitation probability and the two optional temperatures. *)
Definition classify (prob : Q) (hi lo : option Q) : string * string :=
  let summary := "Clear" in
  let advice := advice_clear in
  let '(summary, advice) :=
    if Qle_bool 70 prob then ("Rainy", advice_rain)
    else if Qle_bool 40 prob then ("Cloudy", advice_showers)
    else (summary, advice) in
  let advice :=
    match hi with
    | Some h => if Qle_bool 32 h then advice_hot else advice
    | None => advice
    end in
  let advice :=
    match lo with
    | Some l => if Qle_bool l 35 then advice_cold else advice
    | None => advice
    end in
  (summary, advice).

(** Lines 48-74: the body of the loop at index [idx] and date [d]. *)
Definition forecast_entry (tmax tmin precip : list Q) (idx : nat) (d : date)
  : py ForecastDay :=
  (prob <- (if (idx <? List.length precip)%nat then list_get precip idx
            else Return 0%Q) ;;
   hi <- (if (idx <? List.length tmax)%nat
          then (x <- list_get tmax idx ;; Return (Some x))
          else Return None) ;;
   lo <- (if (idx <? List.length tmin)%nat
          then (x <- list_get tmin idx ;; Return (Some x))
          else Return None) ;;
   let '(summary, advice) := classify prob hi lo in
   Return (mk_day d
             (match hi with Some h => h | None => 0%Q end)
             (match lo with Some l => l | None => 0%Q end)
             (py_int prob) summary advice))%py.

(** [for idx, d in enumerate(dates): ... results.append(...)]. *)
Fixpoint forecast_loop (tmax tmin precip : list Q) (idx : nat)
    (dates : list date) (results : list ForecastDay)
  : py (list ForecastDay) :=
  match dates with
  | [] => Return results
  | d :: rest =>
      (entry <- forecast_entry tmax tmin precip idx d ;;
       forecast_loop tmax tmin precip (S idx) rest (results ++ [entry]))%py
  end.

(** Lines 42-75: from the [daily] object to the list of days. *)
Definition parse_daily (daily : Daily) : py (list ForecastDay) :=
  let dates := dict_get_default (time_ daily) [] in
  let tmax := dict_get_default (temperature_2m_max daily) [] in
  let tmin := dict_get_default (temperature_2m_min daily) [] in
  let precip := dict_get_default (precipitation_probability_max daily) [] in
  forecast_loop tmax tmin precip 0 dates [].

(** [fetch_daily_forecast], lines 24-75. *)
Definition fetch_daily_forecast (lat lon : Q) (start_date end_date : date)
    (net : option (Response ForecastData)) : py (list ForecastDay) :=
  match (resp <- client_get net ;;
         raise_for_status resp ;;;
         data <- json resp ;;
         Return (dict_get_default (daily data) empty_daily))%py with
  | Raise _ => Return []
  | Return daily => parse_daily daily
  end.

End WeatherClient.

(** ** The relational store *)

(** Modelled from the spec: [app/models.py] and [app/db.py] are not part of
    the sources.  The tables and their columns follow section 3 of the
    specification and the read schemas of [schemas.py]; a table is the list
    of its rows in storage order. *)
Module User.
Record t : Type := mk { id : Z; email : string; username : string }.
End User.

Module Trip.
Record t : Type := mk {
  id : Z;
  owner_id : Z;
  name : string;
  destination : string;
  start_date : date;
  end_date : date }.
End Trip.

Module TripMember.
Record t : Type := mk { id : Z; trip_id : Z; user_id : Z; role : string }.
Definition set_role (r : string) (m : t) : t :=
  mk (id m) (trip_id m) (user_id m) r.
End TripMember.

Module Event.
Record t : Type := mk {
  id : Z;
  trip_id : Z;
  location_id : option Z;
  date_ : date;
  start_time : option time;
  end_time : option time;
  title : string;
  type : string;
  cost : option Q;
  notes : option string }.
End Event.

Module BudgetEnvelope.
Record t : Type := mk {
  id : Z;
  trip_id : Z;
  category : string;
  planned_amount : Q;
  notes : option string }.
End BudgetEnvelope.

Module Expense.
Record t : Type := mk {
  id : Z;
  trip_id : Z;
  envelope_id : option Z;
  event_id : option Z;
  description : string;
  amount : Q;
  currency : string;
  spent_at_date : date }.
End Expense.

Module WeatherAlert.
Record t : Type := mk {
  id : Z;
  trip_id : Z;
  date_ : date;
  severity : string;
  summary : string }.
End WeatherAlert.

Record Db : Type := mk_db {
  trips : list Trip.t;
  trip_members : list TripMember.t;
  events : list Event.t;
  budget_envelopes : list BudgetEnvelope.t;
  expenses : list Expense.t;
  weather_alerts : list WeatherAlert.t }.

Definition set_trips (db : Db) (l : list Trip.t) : Db :=
  mk_db l (trip_members db) (events db) (budget_envelopes db) (expenses db)
    (weather_alerts db).

Definition set_trip_members (db : Db) (l : list TripMember.t) : Db :=
  mk_db (trips db) l (events db) (budget_envelopes db) (expenses db)
    (weather_alerts db).

(** Modelled from the spec: the store assigns the numeric id of a new row
    (section 3).  With the default SQLite URL of [config.py] an integer
    primary key takes one more than the largest id in the table. *)
Definition next_id (ids : list Z) : Z := 1 + fold_right Z.max 0 ids.

(** Modelled from the spec: the [trip.members] relationship is declared in
    [app/models.py]; it lists the membership rows whose trip reference is
    this trip (sections 3 and 9). *)
Definition members (db : Db) (trip : Trip.t) : list TripMember.t :=
  filter (fun m => TripMember.trip_id m =? Trip.id trip) (trip_members db).

(** The first row that passes [p] is replaced by [f] of it: an attribute
    assignment on the object [first()] returned, then [commit]. *)
Fixpoint update_first {A} (p : A -> bool) (f : A -> A) (l : list A) : list A :=
  match l with
  | [] => []
  | x :: rest => if p x then f x :: rest else x :: update_first p f rest
  end.

(** A route handler: it reads and writes the store and returns or raises. *)
Definition handler (A : Type) : Type := Db -> py A * Db.

Definition h_ret {A} (a : A) : handler A := fun db => (Return a, db).

Definition h_bind {A B} (m : handler A) (k : A -> handler B) : handler B :=
  fun db =>
    match m db with
    | (Return a, db') => k a db'
    | (Raise e, db') => (Raise e, db')
    end.

(** A computation that only reads the store. *)
Definition h_read {A} (f : Db -> py A) : handler A := fun db => (f db, db).

(** A write, committed. *)
Definition h_write (f : Db -> Db) : handler unit := fun db => (Return tt, f db).

Declare Scope handler_scope.
Delimit Scope handler_scope with handler.
Notation "x <- m ;; k" := (h_bind m (fun x => k))
  (at level 61, m at next level, right associativity) : handler_scope.
Notation "m ;;; k" := (h_bind m (fun _ => k))
  (at level 61, right associativity) : handler_scope.

(** ** schemas.py: the request and response models the routers use *)

Module Schemas.
Record TripCreate : Type := mk_trip_create {
  tc_owner_id : option Z;
  tc_name : string;
  tc_destination : string;
  tc_start_date : date;
  tc_end_date : date }.

(** A field is [None] when the request left it unset. *)
Record TripUpdate : Type := mk_trip_update {
  tu_name : option string;
  tu_destination : option string;
  tu_start_date : option date;
  tu_end_date : option date }.

Record TripWeatherDay : Type := mk_weather_day {
  wd_date : date;
  wd_temp_max : Q;
  wd_temp_min : Q;
  wd_precip_prob : Z;
  wd_summary : string;
  wd_advice : string }.

Record TripWeatherResponse : Type := mk_weather_response {
  city : string;
  wr_start_date : date;
  wr_end_date : date;
  days : list TripWeatherDay }.
End Schemas.

(** ** routers/trips.py *)

Module Trips.
Import Schemas.

Record TripMemberUpsert : Type := mk_upsert { user_id : Z; role : string }.

Definition forbidden_member : exn :=
  HTTPException 403 "Not authorized for this trip".
Definition forbidden_owner : exn :=
  HTTPException 403 "Only owner can perform this action".
Definition trip_not_found : exn := HTTPException 404 "Trip not found".
Definition member_not_found : exn := HTTPException 404 "Member not found".

Definition _get_trip_or_404 (db : Db) (trip_id : Z) : py Trip.t :=
  match find (fun t => Trip.id t =? trip_id) (trips db) with
  | Some trip => Return trip
  | None => Raise trip_not_found
  end.

Definition _ensure_member_or_owner (db : Db) (trip : Trip.t) (user_id : Z)
  : py unit :=
  let is_owner := Trip.owner_id trip =? user_id in
  let is_member :=
    existsb (fun member => TripMember.user_id member =? user_id)
      (members db trip) in
  if negb (is_owner || is_member) then Raise forbidden_member
  else Return tt.

Definition _ensure_owner (trip : Trip.t) (user_id : Z) : py unit :=
  if negb (Trip.owner_id trip =? user_id) then Raise forbidden_owner
  else Return tt.

(** The outer join with the membership table, filtered and made distinct:
    the trips the caller owns or has a membership row for. *)
Definition list_trips (current_user : User.t) : handler (list Trip.t) :=
  h_read (fun db =>
    Return
      (filter
         (fun t =>
            (Trip.owner_id t =? User.id current_user)
            || existsb
                 (fun m => (TripMember.trip_id m =? Trip.id t)
                           && (TripMember.user_id m =? User.id current_user))
                 (trip_members db))
         (trips db))).

Definition create_trip (payload : TripCreate) (current_user : User.t)
  : handler Trip.t :=
  fun db =>
    let trip :=
      Trip.mk (next_id (map Trip.id (trips db))) (User.id current_user)
        (tc_name payload) (tc_destination payload)
        (tc_start_date payload) (tc_end_date payload) in
    (Return trip, set_trips db (trips db ++ [trip])).

Definition get_trip (trip_id : Z) (current_user : User.t) : handler Trip.t :=
  h_read (fun db =>
    (trip <- _get_trip_or_404 db trip_id ;;
     _ensure_member_or_owner db trip (User.id current_user) ;;;
     Return trip)%py).

(** [for field, value in update_data.items(): setattr(trip, field, value)]
    over the fields the request set. *)
Definition apply_update (payload : TripUpdate) (trip : Trip.t) : Trip.t :=
  Trip.mk (Trip.id trip) (Trip.owner_id trip)
    (dict_get_default (tu_name payload) (Trip.name trip))
    (dict_get_default (tu_destination payload) (Trip.destination trip))
    (dict_get_default (tu_start_date payload) (Trip.start_date trip))
    (dict_get_default (tu_end_date payload) (Trip.end_date trip)).

Definition update_trip (trip_id : Z) (payload : TripUpdate)
    (current_user : User.t) : handler Trip.t :=
  (trip <- h_read (fun db => _get_trip_or_404 db trip_id) ;;
   h_read (fun _ => _ensure_owner trip (User.id current_user)) ;;;
   h_write (fun db =>
     set_trips db
       (update_first (fun t => Trip.id t =? trip_id) (apply_update payload)
          (trips db))) ;;;
   h_ret (apply_update payload trip))%handler.

(** Modelled from the spec: the cascade of [db.delete(trip)] is declared
    in [app/models.py]; section 3 has a trip own its members, events,
    envelopes, expenses and alerts, deleted with it. *)
Definition delete_cascade (trip_id : Z) (db : Db) : Db :=
  mk_db
    (filter (fun t => negb (Trip.id t =? trip_id)) (trips db))
    (filter (fun m => negb (TripMember.trip_id m =? trip_id))
       (trip_members db))
    (filter (fun e => negb (Event.trip_id e =? trip_id)) (events db))
    (filter (fun e => negb (BudgetEnvelope.trip_id e =? trip_id))
       (budget_envelopes db))
    (filter (fun e => negb (Expense.trip_id e =? trip_id)) (expenses db))
    (filter (fun a => negb (WeatherAlert.trip_id a =? trip_id))
       (weather_alerts db)).

Definition delete_trip (trip_id : Z) (current_user : User.t) : handler unit :=
  (trip <- h_read (fun db => _get_trip_or_404 db trip_id) ;;
   h_read (fun _ => _ensure_owner trip (User.id current_user)) ;;;
   h_write (delete_cascade (Trip.id trip)))%handler.

Definition list_trip_members (trip_id : Z) (current_user : User.t)
  : handler (list TripMember.t) :=
  h_read (fun db =>
    (trip <- _get_trip_or_404 db trip_id ;;
     _ensure_member_or_owner db trip (User.id current_user) ;;;
     Return (members db trip))%py).

(** The filter of the two membership queries. *)
Definition is_row (trip_id user_id : Z) (m : TripMember.t) : bool :=
  (TripMember.trip_id m =? trip_id) && (TripMember.user_id m =? user_id).

Definition add_or_update_member (trip_id : Z) (payload : TripMemberUpsert)
    (current_user : User.t) : handler TripMember.t :=
  (trip <- h_read (fun db => _get_trip_or_404 db trip_id) ;;
   h_read (fun _ => _ensure_owner trip (User.id current_user)) ;;;
   fun db =>
     match find (is_row trip_id (user_id payload)) (trip_members db) with
     | Some member =>
         (Return (TripMember.set_role (role payload) member),
          set_trip_members db
            (update_first (is_row trip_id (user_id payload))
               (TripMember.set_role (role payload)) (trip_members db)))
     | None =>
         let member :=
           TripMember.mk (next_id (map TripMember.id (trip_members db)))
             trip_id (user_id payload) (role payload) in
         (Return member, set_trip_members db (trip_members db ++ [member]))
     end)%handler.

Definition delete_member (trip_id user_id : Z) (current_user : User.t)
  : handler unit :=
  (trip <- h_read (fun db => _get_trip_or_404 db trip_id) ;;
   h_read (fun _ => _ensure_owner trip (User.id current_user)) ;;;
   fun db =>
     match find (is_row trip_id user_id) (trip_members db) with
     | None => (Raise member_not_found, db)
     | Some member =>
         (Return tt,
          set_trip_members db
            (filter
               (fun m => negb (TripMember.id m =? TripMember.id member))
               (trip_members db)))
     end)%handler.

(** *** The PDF export *)

(** A formatted string keeps the values it interpolates: a date, a time,
    a number under [:.2f], an integer. *)
Inductive piece : Type :=
| Lit (s : string)
| FmtDate (d : date)
| FmtTime (t : time)
| Fmt2f (x : Q)
| FmtInt (n : Z).

Definition text : Type := list piece.

Definition dquote : string := String (Ascii.ascii_of_nat 34) EmptyString.

(** The calls made on the [reportlab] canvas, in order. *)
Inductive canvas_op : Type :=
| SetFont (font : string) (size : Z)
| DrawString (x y : Q) (s : text)
| ShowPage
| Save.

Record StreamingResponse : Type := mk_streaming {
  media_type : string;
  content_disposition : text;
  body : list canvas_op }.

(** [letter], in points. *)
Definition width : Q := 612.
Definition height : Q := 792.

Definition Qlt_bool (x y : Q) : bool := negb (Qle_bool y x).

(** [ORDER BY date, start_time]; SQLite puts an absent time first. *)
Definition date_compare (a b : date) : comparison :=
  match year a ?= year b with
  | Eq => match month a ?= month b with
          | Eq => day a ?= day b
          | c => c
          end
  | c => c
  end.

Definition time_compare (a b : time) : comparison :=
  match hour a ?= hour b with
  | Eq => match minute a ?= minute b with
          | Eq => second a ?= second b
          | c => c
          end
  | c => c
  end.

Definition event_leb (a b : Event.t) : bool :=
  match date_compare (Event.date_ a) (Event.date_ b) with
  | Lt => true
  | Gt => false
  | Eq =>
      match Event.start_time a, Event.start_time b with
      | None, _ => true
      | Some _, None => false
      | Some ta, Some tb =>
          match time_compare ta tb with Gt => false | _ => true end
      end
  end.

Fixpoint insert_event (e : Event.t) (l : list Event.t) : list Event.t :=
  match l with
  | [] => [e]
  | x :: rest =>
      if event_leb e x then e :: x :: rest else x :: insert_event e rest
  end.

Definition order_events (l : list Event.t) : list Event.t :=
  fold_right insert_event [] l.

(** The three loops share one body: draw the line at [(60, y)], move down
    14 points, and start a new page when [y] falls under 80. *)
Definition draw_line (st : list canvas_op * Q) (line : text)
  : list canvas_op * Q :=
  let '(ops, y) := st in
  let ops := ops ++ [DrawString 60 y line] in
  let y := (y - 14)%Q in
  if Qlt_bool y 80 then (ops ++ [ShowPage], (height - 50)%Q) else (ops, y).

Definition event_line (evt : Event.t) : text :=
  let line :=
    [FmtDate (Event.date_ evt); Lit " - "; Lit (Event.title evt); Lit " (";
     Lit (Event.type evt); Lit ")"] in
  match Event.start_time evt with
  | Some t => line ++ [Lit " @ "; FmtTime t]
  | None => line
  end.

(** Line 213: [sum(exp.amount for exp in expenses if exp.envelope_id == env.id)]. *)
Definition linked (env : BudgetEnvelope.t) (exp : Expense.t) : bool :=
  match Expense.envelope_id exp with
  | Some i => i =? BudgetEnvelope.id env
  | None => false
  end.

Definition py_sum (l : list Q) : Q := fold_left Qplus l 0%Q.

Definition actual (expenses : list Expense.t) (env : BudgetEnvelope.t) : Q :=
  py_sum (map Expense.amount (filter (linked env) expenses)).

Definition budget_line (expenses : list Expense.t) (env : BudgetEnvelope.t)
  : text :=
  [Lit (BudgetEnvelope.category env); Lit ": planned $";
   Fmt2f (BudgetEnvelope.planned_amount env); Lit " / actual $";
   Fmt2f (actual expenses env)].

Definition alert_line (alert : WeatherAlert.t) : text :=
  [FmtDate (WeatherAlert.date_ alert); Lit " [";
   Lit (WeatherAlert.severity alert); Lit "] ";
   Lit (WeatherAlert.summary alert)].

(** Lines 169-236, once the trip is loaded and the caller may read it. *)
Definition render (db : Db) (trip_id : Z) (trip : Trip.t) : StreamingResponse :=
  let events :=
    order_events (filter (fun e => Event.trip_id e =? trip_id) (events db)) in
  let envelopes :=
    filter (fun e => BudgetEnvelope.trip_id e =? trip_id)
      (budget_envelopes db) in
  let expenses :=
    filter (fun e => Expense.trip_id e =? trip_id) (expenses db) in
  let alerts :=
    filter (fun a => WeatherAlert.trip_id a =? trip_id) (weather_alerts db) in
  let y := (height - 50)%Q in
  let p := [SetFont "Helvetica-Bold" 16;
            DrawString 50 y [Lit "Trip: "; Lit (Trip.name trip)]] in
  let y := (y - 20)%Q in
  let p := p ++ [SetFont "Helvetica" 12;
                 DrawString 50 y
                   [Lit "Destination: "; Lit (Trip.destination trip)]] in
  let y := (y - 15)%Q in
  let p := p ++ [DrawString 50 y
                   [Lit "Dates: "; FmtDate (Trip.start_date trip);
                    Lit " to "; FmtDate (Trip.end_date trip)]] in
  let y := (y - 25)%Q in
  let p := p ++ [SetFont "Helvetica-Bold" 14; DrawString 50 y [Lit "Events"]] in
  let y := (y - 18)%Q in
  let p := p ++ [SetFont "Helvetica" 11] in
  let '(p, y) := fold_left draw_line (map event_line events) (p, y) in
  let y := (y - 10)%Q in
  let p := p ++ [SetFont "Helvetica-Bold" 14; DrawString 50 y [Lit "Budget"]] in
  let y := (y - 18)%Q in
  let p := p ++ [SetFont "Helvetica" 11] in
  let '(p, y) :=
    fold_left draw_line (map (budget_line expenses) envelopes) (p, y) in
  let '(p, y) :=
    match alerts with
    | [] => (p, y)
    | _ =>
        let y := (y - 10)%Q in
        let p := p ++ [SetFont "Helvetica-Bold" 14;
                       DrawString 50 y [Lit "Weather Alerts"]] in
        let y := (y - 18)%Q in
        let p := p ++ [SetFont "Helvetica" 11] in
        fold_left draw_line (map alert_line alerts) (p, y)
    end in
  let p := p ++ [ShowPage; Save] in
  mk_streaming "application/pdf"
    [Lit "attachment; filename="; Lit dquote; Lit "trip-"; FmtInt trip_id;
     Lit ".pdf"; Lit dquote] p.

Definition export_trip_pdf (trip_id : Z) (current_user : User.t)
  : handler StreamingResponse :=
  h_read (fun db =>
    (trip <- _get_trip_or_404 db trip_id ;;
     _ensure_member_or_owner db trip (User.id current_user) ;;;
     Return (render db trip_id trip))%py).

End Trips.

(** ** routers/weather.py *)

Module Weather.
Import Schemas.

Definition _get_trip (db : Db) (trip_id : Z) : py Trip.t :=
  match find (fun t => Trip.id t =? trip_id) (trips db) with
  | Some trip => Return trip
  | None => Raise (HTTPException 404 "Trip not found")
  end.

Definition _user_role_for_trip (db : Db) (trip : Trip.t) (user_id : Z)
  : option string :=
  if Trip.owner_id trip =? user_id then Some "owner"
  else
    match find (fun m => TripMember.user_id m =? user_id) (members db trip) with
    | Some membership => Some (TripMember.role membership)
    | None => None
    end.

(** [not role] on an optional string: true on [None] and on the empty
    string. *)
Definition py_not (role : option string) : bool :=
  match role with
  | None => true
  | Some EmptyString => true
  | Some (String _ _) => false
  end.

Definition _require_view_access (db : Db) (trip : Trip.t) (user_id : Z)
  : py unit :=
  let role := _user_role_for_trip db trip user_id in
  if py_not role then Raise (HTTPException 403 "Not authorized for this trip")
  else Return tt.

(** Line 46: a [TripWeatherDay] built from the keys of the dict [d]. *)
Definition weather_day (d : WeatherClient.ForecastDay) : TripWeatherDay :=
  mk_weather_day (WeatherClient.date_ d) (WeatherClient.temp_max d)
    (WeatherClient.temp_min d) (WeatherClient.precip_prob d)
    (WeatherClient.summary d) (WeatherClient.advice d).

(** The two providers, as the answers they give to the requests the
    handler makes. *)
Record Providers : Type := mk_providers {
  geocoding : string -> option (WeatherClient.Response WeatherClient.GeoData);
  forecast : Q -> Q -> date -> date ->
             option (WeatherClient.Response WeatherClient.ForecastData) }.

Definition location_not_found : exn :=
  HTTPException 404 "Could not find location for this trip's destination".

Definition trip_weather (net : Providers) (trip_id : Z)
    (current_user : User.t) : handler TripWeatherResponse :=
  h_read (fun db =>
    (trip <- _get_trip db trip_id ;;
     _require_view_access db trip (User.id current_user) ;;;
     coords <- WeatherClient.geocode_city (Trip.destination trip)
                 (geocoding net (Trip.destination trip)) ;;
     match coords with
     | None => Raise location_not_found
     | Some (lat, lon) =>
         daily <- WeatherClient.fetch_daily_forecast lat lon
                    (Trip.start_date trip) (Trip.end_date trip)
                    (forecast net lat lon (Trip.start_date trip)
                       (Trip.end_date trip)) ;;
         let days := map weather_day daily in
         Return (mk_weather_response (Trip.destination trip)
                   (Trip.start_date trip) (Trip.end_date trip) days)
     end)%py).

End Weather.

(** ** Definitions the statements use *)

(** What the loop appends at index [idx]: the guarded reads are [nth] with
    the default and [nth_error]. *)
Definition entry_at (tmax tmin precip : list Q) (idx : nat) (d : date)
  : WeatherClient.ForecastDay :=
  let prob := nth idx precip 0%Q in
  let hi := nth_error tmax idx in
  let lo := nth_error tmin idx in
  let '(summary, advice) := WeatherClient.classify prob hi lo in
  WeatherClient.mk_day d
    (match hi with Some h => h | None => 0%Q end)
    (match lo with Some l => l | None => 0%Q end)
    (py_int prob) summary advice.

Fixpoint entries_from (tmax tmin precip : list Q) (idx : nat)
    (dates : list date) : list WeatherClient.ForecastDay :=
  match dates with
  | [] => []
  | d :: rest =>
      entry_at tmax tmin precip idx d
      :: entries_from tmax tmin precip (S idx) rest
  end.

(** A successful answer of the forecast provider carrying [daily]. *)
Definition forecast_ok (daily : WeatherClient.Daily)
  : option (WeatherClient.Response WeatherClient.ForecastData) :=
  Some (WeatherClient.mk_response 200
          (Some (WeatherClient.mk_forecast_data (Some daily)))).

(** The four parallel arrays of a [daily] object. *)
Definition dates_of (daily : WeatherClient.Daily) : list date :=
  dict_get_default (WeatherClient.time_ daily) [].
Definition tmax_of (daily : WeatherClient.Daily) : list Q :=
  dict_get_default (WeatherClient.temperature_2m_max daily) [].
Definition tmin_of (daily : WeatherClient.Daily) : list Q :=
  dict_get_default (WeatherClient.temperature_2m_min daily) [].
Definition precip_of (daily : WeatherClient.Daily) : list Q :=
  dict_get_default (WeatherClient.precipitation_probability_max daily) [].

(** The advice the precipitation rules alone give. *)
Definition precipitation_advice (prob : Q) : string :=
  if Qle_bool 70 prob then WeatherClient.advice_rain
  else if Qle_bool 40 prob then WeatherClient.advice_showers
  else WeatherClient.advice_clear.

(** Sample data. *)
Definition day1 : date := mk_date 2024 6 1.
Definition day2 : date := mk_date 2024 6 2.
Definition day3 : date := mk_date 2024 6 3.

Definition one_day (prob hi lo : Q) : WeatherClient.Daily :=
  WeatherClient.mk_daily (Some [day1]) (Some [hi]) (Some [lo]) (Some [prob]).

Definition ragged_daily : WeatherClient.Daily :=
  WeatherClient.mk_daily (Some [day1; day2; day3])
    (Some [20%Q; 21%Q]) (Some [40%Q]) (Some [10%Q; 80%Q]).

Definition hot_day_no_min : WeatherClient.Daily :=
  WeatherClient.mk_daily (Some [day1]) (Some [35%Q]) (Some []) (Some [10%Q]).

Definition alice : User.t := User.mk 1 "alice@example.org" "alice".
Definition bob : User.t := User.mk 2 "bob@example.org" "bob".
Definition carol : User.t := User.mk 3 "carol@example.org" "carol".
Definition dave : User.t := User.mk 4 "dave@example.org" "dave".

Definition trip1 : Trip.t :=
  Trip.mk 1 1 "Summer" "Atlantis" (mk_date 2024 6 1) (mk_date 2024 6 3).

Definition sample_db : Db :=
  mk_db [trip1]
    [TripMember.mk 1 1 2 "viewer"; TripMember.mk 2 1 3 EmptyString]
    [Event.mk 1 1 None (mk_date 2024 6 2) (Some (mk_time 9 30 0)) None
       "Museum" "culture" None None;
     Event.mk 2 1 None (mk_date 2024 6 1) None None
       "Arrival" "travel" None None]
    [BudgetEnvelope.mk 1 1 "Food" 100 None;
     BudgetEnvelope.mk 2 1 "Transport" 50 None]
    [Expense.mk 1 1 (Some 1) None "Lunch" (25 # 2) "USD" (mk_date 2024 6 1);
     Expense.mk 2 1 (Some 2) None "Taxi" 30 "USD" (mk_date 2024 6 1);
     Expense.mk 3 1 None None "Souvenir" 7 "USD" (mk_date 2024 6 2);
     Expense.mk 4 1 (Some 1) None "Dinner" 20 "USD" (mk_date 2024 6 2)]
    [].


Definition offline : Weather.Providers :=
  Weather.mk_providers (fun _ => None) (fun _ _ _ _ => None).

(** A provider that finds every city and forecasts [ragged_daily]. *)
Definition online : Weather.Providers :=
  Weather.mk_providers
    (fun _ => Some (WeatherClient.mk_response 200
                      (Some (WeatherClient.mk_geo_data
                               (Some [WeatherClient.mk_geo_result
                                        (Some (5 # 2)%Q) (Some 7%Q)])))))
    (fun _ _ _ _ => forecast_ok ragged_daily).

(** Who a user is for a trip. *)
Definition is_owner (trip : Trip.t) (u : User.t) : Prop :=
  Trip.owner_id trip = User.id u.

Definition is_member (db : Db) (trip : Trip.t) (u : User.t) : Prop :=
  exists m, In m (members db trip) /\ TripMember.user_id m = User.id u.

Definition may_read (db : Db) (trip : Trip.t) (u : User.t) : Prop :=
  is_owner trip u \/ is_member db trip u.

(** The pair (trip, user) has a membership row. *)
Definition has_row (db : Db) (trip_id user_id : Z) : Prop :=
  exists m, In m (trip_members db)
            /\ TripMember.trip_id m = trip_id
            /\ TripMember.user_id m = user_id.

(** The member count of a trip. *)
Definition member_count (db : Db) (trip : Trip.t) : nat :=
  List.length (members db trip).


Definition sample_trip : Schemas.TripCreate :=
  Schemas.mk_trip_create (Some 99) "Winter" "Oslo"
    (mk_date 2025 1 10) (mk_date 2025 1 5).

(** Primary keys are unique, and a (trip, user) pair has at most one
    membership row. *)
Definition trips_unique (db : Db) : Prop := NoDup (map Trip.id (trips db)).

Definition member_key (m : TripMember.t) : Z * Z :=
  (TripMember.trip_id m, TripMember.user_id m).

Definition members_unique (db : Db) : Prop :=
  NoDup (map TripMember.id (trip_members db))
  /\ NoDup (map member_key (trip_members db)).

(** A request body that sets no field. *)
Definition no_change : Schemas.TripUpdate :=
  Schemas.mk_trip_update None None None None.

Definition rename (name : string) : Schemas.TripUpdate :=
  Schemas.mk_trip_update (Some name) None None None.





Definition drawn_within (lo hi : Q) (op : Trips.canvas_op) : Prop :=
  match op with
  | Trips.DrawString _ y _ => (lo <= y <= hi)%Q
  | _ => True
  end.

Definition of_trip_events (db : Db) (trip_id : Z) : list Event.t :=
  filter (fun e => Event.trip_id e =? trip_id) (events db).
Definition of_trip_envelopes (db : Db) (trip_id : Z) : list BudgetEnvelope.t :=
  filter (fun e => BudgetEnvelope.trip_id e =? trip_id) (budget_envelopes db).
Definition of_trip_alerts (db : Db) (trip_id : Z) : list WeatherAlert.t :=
  filter (fun a => WeatherAlert.trip_id a =? trip_id) (weather_alerts db).

(** The lines drawn at the item indent (x = 60), in drawing order. *)
Definition item_lines (ops : list Trips.canvas_op) : list Trips.text :=
  flat_map
    (fun op =>
       match op with
       | Trips.DrawString x _ s => if Qeq_bool x 60 then [s] else []
       | _ => []
       end)
    ops.

(** [ORDER BY date, start_time]: an event may come before another when
    its date is earlier, or the dates are equal and its start time is
    absent or not later. *)
Definition date_lt (a b : date) : Prop :=
  year a < year b
  \/ (year a = year b
      /\ (month a < month b \/ (month a = month b /\ day a < day b))).

Definition time_le (a b : time) : Prop :=
  hour a < hour b
  \/ (hour a = hour b
      /\ (minute a < minute b
          \/ (minute a = minute b /\ second a <= second b))).

Definition event_before (a b : Event.t) : Prop :=
  date_lt (Event.date_ a) (Event.date_ b)
  \/ (Event.date_ a = Event.date_ b
      /\ match Event.start_time a, Event.start_time b with
         | None, _ => True
         | Some _, None => False
         | Some ta, Some tb => time_le ta tb
         end).

(** * Properties *)

(** ** The forecast loop *)

Section ForecastLoop.
Variables tmax tmin precip : list Q.

Lemma guarded_get_default (l : list Q) (idx : nat) :
  (if (idx <? List.length l)%nat then list_get l idx else Return 0%Q)
  = Return (nth idx l 0%Q).
Proof.
  unfold list_get.
  destruct (Nat.ltb_spec idx (List.length l)) as [Hlt | Hge].
  - rewrite (nth_error_nth' l 0%Q Hlt). reflexivity.
  - rewrite (nth_overflow l 0%Q Hge). reflexivity.
Qed.

Lemma guarded_get_option (l : list Q) (idx : nat) :
  (if (idx <? List.length l)%nat
   then py_bind (list_get l idx) (fun x => Return (Some x))
   else Return None)
  = Return (nth_error l idx).
Proof.
  unfold list_get.
  destruct (Nat.ltb_spec idx (List.length l)) as [Hlt | Hge].
  - destruct (nth_error l idx) eqn:E; [reflexivity |].
    apply nth_error_None in E. lia.
  - apply nth_error_None in Hge. rewrite Hge. reflexivity.
Qed.

Lemma forecast_entry_returns (idx : nat) (d : date) :
  WeatherClient.forecast_entry tmax tmin precip idx d
  = Return (entry_at tmax tmin precip idx d).
Proof.
  unfold WeatherClient.forecast_entry, entry_at.
  rewrite guarded_get_default. cbn [py_bind].
  rewrite (guarded_get_option tmax). cbn [py_bind].
  rewrite (guarded_get_option tmin). cbn [py_bind].
  destruct (WeatherClient.classify _ _ _). reflexivity.
Qed.

Lemma forecast_loop_returns (dates : list date) :
  forall idx results,
    WeatherClient.forecast_loop tmax tmin precip idx dates results
    = Return (results ++ entries_from tmax tmin precip idx dates).
Proof.
  induction dates as [| d rest IH]; intros idx results; cbn.
  - rewrite app_nil_r. reflexivity.
  - rewrite forecast_entry_returns. cbn [py_bind].
    rewrite IH, <- app_assoc. reflexivity.
Qed.


Lemma entries_from_nth (dates : list date) :
  forall idx i,
    nth_error (entries_from tmax tmin precip idx dates) i
    = option_map (entry_at tmax tmin precip (idx + i)) (nth_error dates i).
Proof.
  induction dates as [| d rest IH]; intros idx i.
  - destruct i; reflexivity.
  - destruct i as [| i]; cbn.
    + rewrite Nat.add_0_r. reflexivity.
    + rewrite IH. replace (S idx + i)%nat with (idx + S i)%nat by lia.
      reflexivity.
Qed.
End ForecastLoop.

Lemma parse_daily_returns (daily : WeatherClient.Daily) :
  WeatherClient.parse_daily daily
  = Return (entries_from (tmax_of daily) (tmin_of daily) (precip_of daily) 0
              (dates_of daily)).
Proof.
  unfold WeatherClient.parse_daily. rewrite forecast_loop_returns. reflexivity.
Qed.

Lemma fetch_forecast_ok (lat lon : Q) (s e : date) (daily : WeatherClient.Daily) :
  WeatherClient.fetch_daily_forecast lat lon s e (forecast_ok daily)
  = Return (entries_from (tmax_of daily) (tmin_of daily) (precip_of daily) 0
              (dates_of daily)).
Proof.
  unfold WeatherClient.fetch_daily_forecast, forecast_ok. cbn.
  apply parse_daily_returns.
Qed.


(** ** Classification *)

Lemma Qle_bool_true (x y : Q) : Qle_bool x y = true -> (x <= y)%Q.
Proof. apply Qle_bool_iff. Qed.

Lemma Qle_bool_false (x y : Q) : Qle_bool x y = false -> ~ (x <= y)%Q.
Proof.
  intros E H. apply Qle_bool_iff in H. rewrite H in E. discriminate.
Qed.

(** Every boolean threshold test in the context becomes the inequality it
    decides. *)
Ltac thresholds :=
  repeat match goal with
    | E : Qle_bool _ _ = true |- _ => apply Qle_bool_true in E
    | E : Qle_bool _ _ = false |- _ => apply Qle_bool_false in E
    end.

Ltac split_thresholds p h l :=
  destruct (Qle_bool 70 p) eqn:E70; destruct (Qle_bool 40 p) eqn:E40;
  destruct (Qle_bool 32 h) eqn:E32; destruct (Qle_bool l 35) eqn:E35.

Lemma nth_of_nth_error (l : list Q) (idx : nat) (x : Q) :
  nth_error l idx = Some x -> nth idx l 0%Q = x.
Proof. intros H. apply nth_error_nth. exact H. Qed.

Lemma nth_error_overflow {A} (l : list A) (idx : nat) :
  (List.length l <= idx)%nat -> nth_error l idx = None.
Proof. apply nth_error_None. Qed.

Lemma precipitation_advice_rules (p : Q) :
  ((70 <= p)%Q -> precipitation_advice p = WeatherClient.advice_rain)
  /\ (~ (70 <= p)%Q -> (40 <= p)%Q ->
      precipitation_advice p = WeatherClient.advice_showers)
  /\ (~ (40 <= p)%Q -> precipitation_advice p = WeatherClient.advice_clear).
Proof.
  unfold precipitation_advice.
  destruct (Qle_bool 70 p) eqn:E70; destruct (Qle_bool 40 p) eqn:E40;
    thresholds; repeat split; intros; try reflexivity; exfalso; lra.
Qed.

(** C2: every day of a forecast whose three measurements are present is
    classified in the stated priority: probability >= 70 gives "Rainy",
    else >= 40 gives "Cloudy", else "Clear"; the advice is the cold caution
    when min <= 35, else the heat caution when max >= 32, else the
    precipitation text; and (50, 20, 2) gives "Cloudy" with the cold
    caution. *)
Theorem classification_priority (lat lon : Q) (s e : date) :
  (forall (daily : WeatherClient.Daily) (idx : nat) (d : date) (p h l : Q),
      nth_error (dates_of daily) idx = Some d ->
      nth_error (precip_of daily) idx = Some p ->
      nth_error (tmax_of daily) idx = Some h ->
      nth_error (tmin_of daily) idx = Some l ->
      exists res day,
        WeatherClient.fetch_daily_forecast lat lon s e (forecast_ok daily)
        = Return res
        /\ nth_error res idx = Some day
        /\ ((70 <= p)%Q -> WeatherClient.summary day = "Rainy")
        /\ (~ (70 <= p)%Q -> (40 <= p)%Q ->
            WeatherClient.summary day = "Cloudy")
        /\ (~ (40 <= p)%Q -> WeatherClient.summary day = "Clear")
        /\ ((l <= 35)%Q -> WeatherClient.advice day = WeatherClient.advice_cold)
        /\ (~ (l <= 35)%Q -> (32 <= h)%Q ->
            WeatherClient.advice day = WeatherClient.advice_hot)
        /\ (~ (l <= 35)%Q -> ~ (32 <= h)%Q -> (70 <= p)%Q ->
            WeatherClient.advice day = WeatherClient.advice_rain)
        /\ (~ (l <= 35)%Q -> ~ (32 <= h)%Q -> ~ (70 <= p)%Q -> (40 <= p)%Q ->
            WeatherClient.advice day = WeatherClient.advice_showers)
        /\ (~ (l <= 35)%Q -> ~ (32 <= h)%Q -> ~ (40 <= p)%Q ->
            WeatherClient.advice day = WeatherClient.advice_clear))
  /\ WeatherClient.fetch_daily_forecast lat lon s e
       (forecast_ok (one_day 50 20 2))
     = Return [WeatherClient.mk_day day1 20 2 50 "Cloudy"
                 WeatherClient.advice_cold].
Proof.
  split; [| reflexivity].
  intros daily idx d p h l Hd Hp Hh Hl.
  rewrite fetch_forecast_ok. eexists. eexists.
  split; [reflexivity |].
  rewrite entries_from_nth, Hd. cbn [option_map Nat.add].
  split; [reflexivity |].
  unfold entry_at. rewrite (nth_of_nth_error _ _ _ Hp), Hh, Hl.
  unfold WeatherClient.classify.
  split_thresholds p h l; cbn; thresholds;
    repeat split; intros; try reflexivity; exfalso; lra.
Qed.

Lemma classification_priority_witness :
  exists res day,
    WeatherClient.fetch_daily_forecast 0 0 day1 day1
      (forecast_ok (one_day 50 20 2)) = Return res
    /\ nth_error res 0 = Some day
    /\ WeatherClient.summary day = "Cloudy"
    /\ WeatherClient.advice day = WeatherClient.advice_cold.
Proof.
  destruct (proj1 (classification_priority 0 0 day1 day1)
              (one_day 50 20 2) 0%nat day1 50%Q 20%Q 2%Q
              eq_refl eq_refl eq_refl eq_refl)
    as (res & day & Hres & Hday & _ & Hcloudy & _ & Hcold & _).
  exists res, day. repeat split; try assumption.
  - apply Hcloudy; [intros H | ]; vm_compute in *; congruence.
  - apply Hcold. vm_compute. congruence.
Defined.

(** C3: at (80, 20, 10) the code returns "Rainy" with the cold caution, not
    the heavy-rain advice, and at (10, 35, 10) it returns "Clear" with the
    cold caution, not the heat caution: the test [lo <= 35] of line 62
    holds for both. *)
Theorem rainy_and_hot_days_get_cold_advice (lat lon : Q) (s e : date) :
  WeatherClient.fetch_daily_forecast lat lon s e
    (forecast_ok (one_day 80 20 10))
  = Return [WeatherClient.mk_day day1 20 10 80 "Rainy"
              WeatherClient.advice_cold]
  /\ WeatherClient.fetch_daily_forecast lat lon s e
       (forecast_ok (one_day 10 35 10))
     = Return [WeatherClient.mk_day day1 35 10 10 "Clear"
                 WeatherClient.advice_cold]
  /\ WeatherClient.advice_cold <> WeatherClient.advice_rain
  /\ WeatherClient.advice_cold <> WeatherClient.advice_hot.
Proof.
  repeat split; try reflexivity; discriminate.
Qed.

(** ** Ragged responses *)





(** ** A missing temperature *)

(** C10 as stated fails: with the min array empty and a max of 35 the
    advice is the heat caution, not the precipitation text. *)
Lemma one_missing_temperature_keeps_other_override :
  ~ (forall (daily : WeatherClient.Daily) (idx : nat)
            (res : list WeatherClient.ForecastDay)
            (day : WeatherClient.ForecastDay),
        WeatherClient.parse_daily daily = Return res ->
        nth_error res idx = Some day ->
        (List.length (tmax_of daily) <= idx)%nat
        \/ (List.length (tmin_of daily) <= idx)%nat ->
        WeatherClient.advice day
        = precipitation_advice (nth idx (precip_of daily) 0%Q)).
Proof.
  intros H.
  specialize (H hot_day_no_min 0%nat
                [WeatherClient.mk_day day1 35 0 10 "Clear"
                   WeatherClient.advice_hot]
                (WeatherClient.mk_day day1 35 0 10 "Clear"
                   WeatherClient.advice_hot)
                eq_refl eq_refl (or_intror (Nat.le_refl 0))).
  vm_compute in H. discriminate H.
Qed.

Lemma advice_texts_distinct :
  WeatherClient.advice_hot <> WeatherClient.advice_cold
  /\ (forall p, precipitation_advice p <> WeatherClient.advice_hot)
  /\ (forall p, precipitation_advice p <> WeatherClient.advice_cold).
Proof.
  split; [discriminate |].
  split; intros p; unfold precipitation_advice;
    destruct (Qle_bool 70 p); destruct (Qle_bool 40 p); discriminate.
Qed.

(** C10, amended: a day whose max entry is missing skips the heat override
    (its advice is the cold caution when its min is present and <= 35, else
    the precipitation text); a day whose min entry is missing skips the cold
    override (its advice is the heat caution when its max is present and
    >= 32, else the precipitation text); a day with both missing keeps the
    precipitation text; the returned temperature of a missing entry is 0.0. *)
Theorem missing_temperature_skips_its_override (lat lon : Q) (s e : date)
    (daily : WeatherClient.Daily) (idx : nat) (d : date) :
  nth_error (dates_of daily) idx = Some d ->
  exists res day,
    WeatherClient.fetch_daily_forecast lat lon s e (forecast_ok daily)
    = Return res
    /\ nth_error res idx = Some day
    /\ ((List.length (tmax_of daily) <= idx)%nat ->
        WeatherClient.temp_max day = 0%Q
        /\ WeatherClient.advice day <> WeatherClient.advice_hot
        /\ forall l, nth_error (tmin_of daily) idx = Some l ->
             ((l <= 35)%Q ->
              WeatherClient.advice day = WeatherClient.advice_cold)
             /\ (~ (l <= 35)%Q ->
                 WeatherClient.advice day
                 = precipitation_advice (nth idx (precip_of daily) 0%Q)))
    /\ ((List.length (tmin_of daily) <= idx)%nat ->
        WeatherClient.temp_min day = 0%Q
        /\ WeatherClient.advice day <> WeatherClient.advice_cold
        /\ forall h, nth_error (tmax_of daily) idx = Some h ->
             ((32 <= h)%Q ->
              WeatherClient.advice day = WeatherClient.advice_hot)
             /\ (~ (32 <= h)%Q ->
                 WeatherClient.advice day
                 = precipitation_advice (nth idx (precip_of daily) 0%Q)))
    /\ ((List.length (tmax_of daily) <= idx)%nat ->
        (List.length (tmin_of daily) <= idx)%nat ->
        WeatherClient.advice day
        = precipitation_advice (nth idx (precip_of daily) 0%Q)).
Proof.
  intros Hd. rewrite fetch_forecast_ok. eexists. eexists.
  split; [reflexivity |].
  rewrite entries_from_nth, Hd. cbn [option_map Nat.add].
  split; [reflexivity |].
  destruct advice_texts_distinct as (Dhc & Dph & Dpc).
  unfold entry_at, WeatherClient.classify.
  set (p := nth idx (precip_of daily) 0%Q).
  assert (Hpa : (if Qle_bool 70 p
                 then ("Rainy", WeatherClient.advice_rain)
                 else if Qle_bool 40 p
                      then ("Cloudy", WeatherClient.advice_showers)
                      else ("Clear", WeatherClient.advice_clear))
                = (fst (if Qle_bool 70 p
                        then ("Rainy", WeatherClient.advice_rain)
                        else if Qle_bool 40 p
                             then ("Cloudy", WeatherClient.advice_showers)
                             else ("Clear", WeatherClient.advice_clear)),
                   precipitation_advice p)).
  { unfold precipitation_advice.
    destruct (Qle_bool 70 p); destruct (Qle_bool 40 p); reflexivity. }
  rewrite Hpa. clear Hpa. cbn [fst snd].
  split; [| split].
  - intros H. rewrite (nth_error_overflow _ _ H).
    split; [reflexivity |]. split.
    + destruct (nth_error (tmin_of daily) idx) as [l |]; cbn;
        [destruct (Qle_bool l 35) |]; cbn; auto.
    + intros l Hl. rewrite Hl. cbn. split; intros Hle.
      * apply Qle_bool_iff in Hle. rewrite Hle. reflexivity.
      * destruct (Qle_bool l 35) eqn:E; [| reflexivity].
        apply Qle_bool_iff in E. contradiction.
  - intros H. rewrite (nth_error_overflow _ _ H).
    split; [reflexivity |]. split.
    + destruct (nth_error (tmax_of daily) idx) as [h |]; cbn;
        [destruct (Qle_bool 32 h) |]; cbn; auto.
    + intros h Hh. rewrite Hh. cbn. split; intros Hle.
      * apply Qle_bool_iff in Hle. rewrite Hle. reflexivity.
      * destruct (Qle_bool 32 h) eqn:E; [| reflexivity].
        apply Qle_bool_iff in E. contradiction.
  - intros H H0.
    rewrite (nth_error_overflow _ _ H), (nth_error_overflow _ _ H0).
    reflexivity.
Qed.

Lemma missing_temperature_skips_its_override_witness :
  exists res day,
    WeatherClient.fetch_daily_forecast 0 0 day1 day3 (forecast_ok ragged_daily)
    = Return res
    /\ nth_error res 2 = Some day
    /\ WeatherClient.temp_max day = 0%Q
    /\ WeatherClient.temp_min day = 0%Q
    /\ WeatherClient.advice day = WeatherClient.advice_clear.
Proof.
  destruct (missing_temperature_skips_its_override 0 0 day1 day3
              ragged_daily 2%nat day3 eq_refl)
    as (res & day & Hres & Hday & Hmax & Hmin & Hboth).
  exists res, day. repeat split; try assumption.
  - apply Hmax. cbn. lia.
  - apply Hmin. cbn. lia.
  - rewrite Hboth; [reflexivity | cbn; lia | cbn; lia].
Defined.

(** ** Geocoding and the weather endpoint *)


Lemma trip_weather_reads_only (net : Weather.Providers) (trip_id : Z)
    (u : User.t) (db : Db) :
  snd (Weather.trip_weather net trip_id u db) = db.
Proof. reflexivity. Qed.




(** ** The store *)

Lemma next_id_above (ids : list Z) : forall x, In x ids -> x < next_id ids.
Proof.
  unfold next_id. induction ids as [| i ids IH]; intros x Hx;
    cbn [fold_right In] in *.
  - contradiction.
  - destruct Hx as [-> | Hx]; [lia |]. specialize (IH x Hx). lia.
Qed.

Lemma find_none_of {A} (p : A -> bool) (l : list A) :
  (forall x, In x l -> p x = false) -> find p l = None.
Proof.
  induction l as [| a l IH]; intros H; cbn; [reflexivity |].
  rewrite (H a (or_introl eq_refl)). apply IH.
  intros x Hx. apply H. right. exact Hx.
Qed.

Lemma find_appended {A} (p : A -> bool) (l : list A) (x : A) :
  (forall y, In y l -> p y = false) -> p x = true ->
  find p (l ++ [x]) = Some x.
Proof.
  induction l as [| a l IH]; intros Hl Hx; cbn.
  - rewrite Hx. reflexivity.
  - rewrite (Hl a (or_introl eq_refl)). apply IH; [| exact Hx].
    intros y Hy. apply Hl. right. exact Hy.
Qed.



Lemma get_trip_or_404_found (db : Db) (trip_id : Z) (trip : Trip.t) :
  Trips._get_trip_or_404 db trip_id = Return trip ->
  find (fun t => Trip.id t =? trip_id) (trips db) = Some trip
  /\ In trip (trips db) /\ Trip.id trip = trip_id.
Proof.
  unfold Trips._get_trip_or_404.
  destruct (find _ (trips db)) as [t |] eqn:E; intros H; [| discriminate].
  injection H as ->. split; [reflexivity |].
  apply find_some in E. destruct E as [Hin Hid].
  split; [exact Hin | lia].
Qed.

Lemma ensure_owner_ok (trip : Trip.t) (u : User.t) :
  is_owner trip u -> Trips._ensure_owner trip (User.id u) = Return tt.
Proof.
  unfold is_owner, Trips._ensure_owner. intros ->.
  rewrite Z.eqb_refl. reflexivity.
Qed.


Lemma has_row_find (db : Db) (trip_id user_id : Z) :
  has_row db trip_id user_id <->
  exists m, find (Trips.is_row trip_id user_id) (trip_members db) = Some m.
Proof.
  unfold has_row, Trips.is_row. split.
  - intros (m & Hin & Ht & Hu).
    destruct (find _ (trip_members db)) as [m' |] eqn:E; [eauto |].
    pose proof (find_none _ _ E m Hin) as Hm. cbn in Hm.
    rewrite Ht, Hu, !Z.eqb_refl in Hm. discriminate.
  - intros (m & E). apply find_some in E. destruct E as [Hin Hm].
    apply andb_true_iff in Hm. destruct Hm as [Ht Hu].
    exists m. repeat split; [exact Hin | lia | lia].
Qed.

Lemma no_row_find (db : Db) (trip_id user_id : Z) :
  ~ has_row db trip_id user_id ->
  find (Trips.is_row trip_id user_id) (trip_members db) = None.
Proof.
  intros H. destruct (find _ (trip_members db)) as [m |] eqn:E;
    [| reflexivity].
  exfalso. apply H. apply has_row_find. eauto.
Qed.

(** ** Creating and reading a trip *)

(** C9: creating a trip and reading it back by its assigned id, as the
    creator, returns the stored trip, whose name, destination and dates are
    the submitted ones and whose owner is the caller; the owner_id of the
    payload plays no part. *)
Theorem create_then_read (payload : Schemas.TripCreate) (u : User.t) (db : Db) :
  exists trip db',
    Trips.create_trip payload u db = (Return trip, db')
    /\ Trips.get_trip (Trip.id trip) u db' = (Return trip, db')
    /\ Trip.name trip = Schemas.tc_name payload
    /\ Trip.destination trip = Schemas.tc_destination payload
    /\ Trip.start_date trip = Schemas.tc_start_date payload
    /\ Trip.end_date trip = Schemas.tc_end_date payload
    /\ Trip.owner_id trip = User.id u
    /\ forall other,
         Trips.create_trip
           (Schemas.mk_trip_create other (Schemas.tc_name payload)
              (Schemas.tc_destination payload)
              (Schemas.tc_start_date payload) (Schemas.tc_end_date payload))
           u db
         = (Return trip, db').
Proof.
  unfold Trips.create_trip. eexists. eexists.
  split; [reflexivity |].
  split; [| repeat split].
  unfold Trips.get_trip, h_read, Trips._get_trip_or_404. cbn [trips set_trips].
  rewrite find_appended.
  - cbn [py_bind]. unfold Trips._ensure_member_or_owner. cbn [Trip.owner_id].
    rewrite Z.eqb_refl. reflexivity.
  - intros y Hy. cbn [Trip.id].
    pose proof (next_id_above (map Trip.id (trips db)) (Trip.id y)
                  (in_map Trip.id _ _ Hy)).
    lia.
  - cbn [Trip.id]. apply Z.eqb_refl.
Qed.

(** The body is stored as sent: an end date before the start date is kept. *)
Example create_keeps_unordered_dates :
  fst (Trips.create_trip sample_trip bob sample_db)
  = Return (Trip.mk 2 2 "Winter" "Oslo" (mk_date 2025 1 10) (mk_date 2025 1 5)).
Proof. reflexivity. Qed.

(** ** Membership *)



(** C7: when the owner of an existing trip removes a user that has no
    membership row for it, the call fails with 404 "Member not found" and
    the store, hence the trip's roster, is as before. *)
Theorem delete_absent_member_404 (db : Db) (trip_id user_id : Z) (u : User.t)
    (trip : Trip.t) :
  Trips._get_trip_or_404 db trip_id = Return trip ->
  is_owner trip u ->
  ~ has_row db trip_id user_id ->
  Trips.delete_member trip_id user_id u db = (Raise Trips.member_not_found, db)
  /\ response_status 204 (fst (Trips.delete_member trip_id user_id u db)) = 404
  /\ members (snd (Trips.delete_member trip_id user_id u db)) trip
     = members db trip.
Proof.
  intros Htrip Hown Hno.
  assert (E : Trips.delete_member trip_id user_id u db
              = (Raise Trips.member_not_found, db)).
  { unfold Trips.delete_member, h_bind, h_read.
    rewrite Htrip, (ensure_owner_ok _ _ Hown), (no_row_find _ _ _ Hno).
    reflexivity. }
  rewrite E. repeat split.
Qed.

Lemma delete_absent_member_404_witness :
  Trips.delete_member 1 4 alice sample_db
  = (Raise Trips.member_not_found, sample_db)
  /\ response_status 204 (fst (Trips.delete_member 1 4 alice sample_db)) = 404.
Proof.
  assert (Hno : ~ has_row sample_db 1 4).
  { intros (m & Hin & Ht & Hu). cbn in Hin.
    destruct Hin as [<- | [<- | []]]; cbn in Hu; discriminate. }
  pose proof (delete_absent_member_404 sample_db 1 4 alice trip1
                eq_refl eq_refl Hno) as (E & St & _).
  split; assumption.
Defined.

(** ** Read and write access *)

Lemma ensure_member_or_owner_ok (db : Db) (trip : Trip.t) (u : User.t) :
  may_read db trip u ->
  Trips._ensure_member_or_owner db trip (User.id u) = Return tt.
Proof.
  unfold may_read, is_owner, is_member, Trips._ensure_member_or_owner.
  intros [Hown | (m & Hin & Hu)].
  - rewrite Hown, Z.eqb_refl. reflexivity.
  - assert (E : existsb (fun member => TripMember.user_id member =? User.id u)
                  (members db trip) = true).
    { apply existsb_exists. exists m. split; [exact Hin | lia]. }
    rewrite E, orb_true_r. reflexivity.
Qed.

Lemma ensure_member_or_owner_forbidden (db : Db) (trip : Trip.t) (u : User.t) :
  ~ may_read db trip u ->
  Trips._ensure_member_or_owner db trip (User.id u)
  = Raise Trips.forbidden_member.
Proof.
  unfold may_read, is_owner, is_member, Trips._ensure_member_or_owner.
  intros H.
  destruct (Z.eqb_spec (Trip.owner_id trip) (User.id u)) as [E | _];
    [exfalso; auto |].
  destruct (existsb _ (members db trip)) eqn:E; [| reflexivity].
  exfalso. apply existsb_exists in E. destruct E as (m & Hin & Hu).
  apply H. right. exists m. split; [exact Hin | lia].
Qed.

Lemma require_view_access_forbidden (db : Db) (trip : Trip.t) (u : User.t) :
  ~ may_read db trip u ->
  Weather._require_view_access db trip (User.id u)
  = Raise (HTTPException 403 "Not authorized for this trip").
Proof.
  unfold may_read, is_owner, is_member, Weather._require_view_access,
    Weather._user_role_for_trip.
  intros H.
  destruct (Z.eqb_spec (Trip.owner_id trip) (User.id u)) as [E | _];
    [exfalso; auto |].
  rewrite find_none_of; [reflexivity |].
  intros m Hin.
  destruct (Z.eqb_spec (TripMember.user_id m) (User.id u)) as [E | _];
    [| reflexivity].
  exfalso. apply H. right. exists m. split; assumption.
Qed.

Lemma require_view_access_ok (db : Db) (trip : Trip.t) (u : User.t) :
  is_owner trip u
  \/ (is_member db trip u
      /\ forall m, In m (members db trip) ->
           TripMember.user_id m = User.id u ->
           TripMember.role m <> EmptyString) ->
  Weather._require_view_access db trip (User.id u) = Return tt.
Proof.
  unfold is_owner, is_member, Weather._require_view_access,
    Weather._user_role_for_trip.
  intros [Hown | ((m & Hin & Hu) & Hroles)].
  - rewrite Hown, Z.eqb_refl. reflexivity.
  - destruct (Trip.owner_id trip =? User.id u); [reflexivity |].
    destruct (find _ (members db trip)) as [m' |] eqn:E.
    + apply find_some in E. destruct E as [Hin' Hu'].
      assert (Hrole : TripMember.role m' <> EmptyString)
        by (apply Hroles; [exact Hin' | lia]).
      cbn. destruct (TripMember.role m'); [contradiction | reflexivity].
    + pose proof (find_none _ _ E m Hin) as Hm. cbn in Hm.
      rewrite Hu, Z.eqb_refl in Hm. discriminate.
Qed.


(** The view check of the weather router refuses a member whose role is the
    empty string, whom the read check of the trips router admits. *)
Example weather_refuses_member_with_empty_role :
  Trips.get_trip 1 carol sample_db = (Return trip1, sample_db)
  /\ Weather.trip_weather online 1 carol sample_db
     = (Raise (HTTPException 403 "Not authorized for this trip"), sample_db).
Proof. split; reflexivity. Qed.



Lemma is_owner_decidable (trip : Trip.t) (u : User.t) :
  is_owner trip u \/ ~ is_owner trip u.
Proof. unfold is_owner. lia. Qed.

Lemma may_read_decidable (db : Db) (trip : Trip.t) (u : User.t) :
  may_read db trip u \/ ~ may_read db trip u.
Proof.
  destruct (is_owner_decidable trip u) as [Hown | Hnot];
    [left; left; exact Hown |].
  destruct (existsb (fun m => TripMember.user_id m =? User.id u)
              (members db trip)) eqn:E.
  - left. right. apply existsb_exists in E. destruct E as (m & Hin & Hu).
    exists m. split; [exact Hin | lia].
  - right. intros [Hown | (m & Hin & Hu)]; [contradiction |].
    assert (T : existsb (fun m => TripMember.user_id m =? User.id u)
                  (members db trip) = true).
    { apply existsb_exists. exists m. split; [exact Hin | lia]. }
    rewrite T in E. discriminate.
Qed.

(** ** The budget section of the export *)











(** * Further properties of the routers *)

(** ** Looking a trip up *)

Lemma find_unique_id (l : list Trip.t) (t : Trip.t) :
  NoDup (map Trip.id l) -> In t l ->
  find (fun x => Trip.id x =? Trip.id t) l = Some t.
Proof.
  induction l as [| a l IH]; intros Hnd Hin; [contradiction |].
  cbn [map] in Hnd. inversion Hnd as [| i ids Hnot Hnd']; subst.
  cbn [find]. destruct Hin as [-> | Hin].
  - rewrite Z.eqb_refl. reflexivity.
  - destruct (Z.eqb_spec (Trip.id a) (Trip.id t)) as [E | _].
    + exfalso. apply Hnot. rewrite E. apply in_map. exact Hin.
    + apply IH; assumption.
Qed.

Lemma get_trip_or_404_missing (db : Db) (trip_id : Z) :
  (forall t, In t (trips db) -> Trip.id t <> trip_id) ->
  Trips._get_trip_or_404 db trip_id = Raise Trips.trip_not_found.
Proof.
  intros H. unfold Trips._get_trip_or_404.
  rewrite find_none_of; [reflexivity |].
  intros t Hin. apply Z.eqb_neq. apply H. exact Hin.
Qed.

Lemma may_read_listed (db : Db) (t : Trip.t) (u : User.t) :
  (Trip.owner_id t =? User.id u)
  || existsb (fun m => (TripMember.trip_id m =? Trip.id t)
                       && (TripMember.user_id m =? User.id u))
       (trip_members db) = true
  <-> may_read db t u.
Proof.
  unfold may_read, is_owner, is_member, members. rewrite orb_true_iff.
  split.
  - intros [H | H]; [left; lia |].
    right. apply existsb_exists in H. destruct H as (m & Hin & Hm).
    apply andb_true_iff in Hm. destruct Hm as [Ht Hu].
    exists m. split; [| lia]. apply filter_In. split; assumption.
  - intros [H | (m & Hin & Hu)]; [left; lia |].
    right. apply filter_In in Hin. destruct Hin as [Hin Ht].
    apply existsb_exists. exists m. split; [exact Hin |].
    rewrite Ht. cbn. lia.
Qed.

(** X1: the trips a caller gets from the listing are exactly the stored
    trips the caller owns or has a membership row for, in storage order
    and without repetition when ids are unique; each of them can then be
    read by its id. *)
Theorem list_trips_lists_readable (u : User.t) (db : Db) :
  exists listed,
    Trips.list_trips u db = (Return listed, db)
    /\ (forall t, In t listed <-> In t (trips db) /\ may_read db t u)
    /\ (trips_unique db ->
        NoDup (map Trip.id listed)
        /\ forall t, In t listed ->
             Trips.get_trip (Trip.id t) u db = (Return t, db)).
Proof.
  unfold Trips.list_trips, h_read. eexists. split; [reflexivity |].
  assert (Hin : forall t,
             In t (filter
                     (fun t =>
                        (Trip.owner_id t =? User.id u)
                        || existsb
                             (fun m => (TripMember.trip_id m =? Trip.id t)
                                       && (TripMember.user_id m =? User.id u))
                             (trip_members db))
                     (trips db))
             <-> In t (trips db) /\ may_read db t u).
  { intros t. rewrite filter_In, may_read_listed. reflexivity. }
  split; [exact Hin |].
  intros Huniq. split.
  - unfold trips_unique in Huniq. revert Huniq.
    generalize (trips db). intros l.
    induction l as [| a l IH]; intros Hnd; cbn [filter map]; [constructor |].
    cbn [map] in Hnd. inversion Hnd as [| i ids Hnot Hnd']; subst.
    destruct (_ || _); [| apply IH, Hnd'].
    cbn [map]. constructor; [| apply IH, Hnd'].
    intros Hmem. apply Hnot. apply in_map_iff in Hmem.
    destruct Hmem as (x & Hx & Hxin). apply filter_In in Hxin.
    rewrite <- Hx. apply in_map. apply Hxin.
  - intros t Ht. apply Hin in Ht. destruct Ht as [Hstored Hread].
    unfold Trips.get_trip, h_read, Trips._get_trip_or_404.
    rewrite (find_unique_id _ _ Huniq Hstored). cbn [py_bind].
    rewrite (ensure_member_or_owner_ok _ _ _ Hread). reflexivity.
Qed.

Lemma sample_trips_unique : trips_unique sample_db.
Proof. repeat constructor. intros []. Qed.

Lemma list_trips_lists_readable_witness :
  exists listed,
    Trips.list_trips bob sample_db = (Return listed, sample_db)
    /\ In trip1 listed
    /\ Trips.get_trip (Trip.id trip1) bob sample_db = (Return trip1, sample_db).
Proof.
  destruct (list_trips_lists_readable bob sample_db)
    as (listed & Hrun & Hin & Hread).
  assert (Hl : In trip1 listed).
  { apply Hin. split; [left; reflexivity |].
    right. exists (TripMember.mk 1 1 2 "viewer"). cbn. auto. }
  exists listed. split; [exact Hrun |]. split; [exact Hl |].
  apply (proj2 (Hread sample_trips_unique)). exact Hl.
Defined.

(** X2: when no stored trip has the requested id, every trip-scoped
    endpoint answers 404 "Trip not found" to every caller, owner or not,
    and the store stays as it was. *)
Theorem missing_trip_is_404 (db : Db) (trip_id : Z) (u : User.t)
    (net : Weather.Providers) :
  (forall t, In t (trips db) -> Trip.id t <> trip_id) ->
  Trips.get_trip trip_id u db = (Raise Trips.trip_not_found, db)
  /\ (forall payload,
        Trips.update_trip trip_id payload u db
        = (Raise Trips.trip_not_found, db))
  /\ Trips.delete_trip trip_id u db = (Raise Trips.trip_not_found, db)
  /\ Trips.list_trip_members trip_id u db = (Raise Trips.trip_not_found, db)
  /\ (forall payload,
        Trips.add_or_update_member trip_id payload u db
        = (Raise Trips.trip_not_found, db))
  /\ (forall target,
        Trips.delete_member trip_id target u db
        = (Raise Trips.trip_not_found, db))
  /\ Trips.export_trip_pdf trip_id u db = (Raise Trips.trip_not_found, db)
  /\ Weather.trip_weather net trip_id u db
     = (Raise (HTTPException 404 "Trip not found"), db).
Proof.
  intros H. pose proof (get_trip_or_404_missing db trip_id H) as E.
  assert (Ew : Weather._get_trip db trip_id
               = Raise (HTTPException 404 "Trip not found")) by exact E.
  unfold Trips.get_trip, Trips.update_trip, Trips.delete_trip,
    Trips.list_trip_members, Trips.add_or_update_member, Trips.delete_member,
    Trips.export_trip_pdf, Weather.trip_weather, h_bind, h_read.
  rewrite E, Ew. repeat split.
Qed.

Lemma missing_trip_is_404_witness :
  Trips.get_trip 7 alice sample_db = (Raise Trips.trip_not_found, sample_db)
  /\ Trips.delete_trip 7 alice sample_db
     = (Raise Trips.trip_not_found, sample_db).
Proof.
  assert (H : forall t, In t (trips sample_db) -> Trip.id t <> 7).
  { intros t [<- | []]. discriminate. }
  pose proof (missing_trip_is_404 sample_db 7 alice offline H)
    as (Hget & _ & Hdel & _).
  split; assumption.
Defined.

(** ** Creating a trip *)

Lemma find_app_found {A} (p : A -> bool) (l l' : list A) (x : A) :
  find p l = Some x -> find p (l ++ l') = Some x.
Proof.
  induction l as [| a l IH]; cbn; [discriminate |].
  destruct (p a); [trivial | exact IH].
Qed.

(** X3: creating a trip gives it an id that no stored trip has, so ids
    stay unique and a second creation gets a different id; every trip that
    could be looked up before is looked up unchanged afterwards, the
    membership table is not touched, and the new trip appears in its
    creator's listing. *)
Theorem create_trip_keeps_store (payload : Schemas.TripCreate) (u : User.t)
    (db : Db) :
  exists trip db',
    Trips.create_trip payload u db = (Return trip, db')
    /\ ~ In (Trip.id trip) (map Trip.id (trips db))
    /\ (trips_unique db -> trips_unique db')
    /\ (forall trip_id old,
          Trips._get_trip_or_404 db trip_id = Return old ->
          Trips._get_trip_or_404 db' trip_id = Return old)
    /\ trip_members db' = trip_members db
    /\ (exists listed,
          Trips.list_trips u db' = (Return listed, db') /\ In trip listed)
    /\ forall payload2 u2,
         exists trip2 db2,
           Trips.create_trip payload2 u2 db' = (Return trip2, db2)
           /\ Trip.id trip2 <> Trip.id trip.
Proof.
  unfold Trips.create_trip. eexists. eexists.
  split; [reflexivity |].
  assert (Hfresh : ~ In (next_id (map Trip.id (trips db)))
                     (map Trip.id (trips db))).
  { intros Hin. pose proof (next_id_above _ _ Hin). lia. }
  split; [exact Hfresh |].
  split; [| split; [| split; [reflexivity | split]]].
  - unfold trips_unique. cbn [trips set_trips]. intros Hnd.
    rewrite map_app. cbn [map Trip.id].
    apply NoDup_app; [exact Hnd | repeat constructor; intros [] |].
    intros a Ha [<- | []]. exact (Hfresh Ha).
  - intros trip_id old. unfold Trips._get_trip_or_404.
    cbn [trips set_trips].
    destruct (find _ (trips db)) as [t |] eqn:E; intros H; [| discriminate].
    rewrite (find_app_found _ _ _ _ E). exact H.
  - unfold Trips.list_trips, h_read. eexists. split; [reflexivity |].
    apply filter_In. cbn [trips set_trips Trip.owner_id]. split.
    + apply in_or_app. right. left. reflexivity.
    + rewrite Z.eqb_refl. reflexivity.
  - intros payload2 u2. eexists. eexists. split; [reflexivity |].
    cbn [trips set_trips Trip.id]. intros E.
    assert (Hin : In (next_id (map Trip.id (trips db)))
                    (map Trip.id
                       (trips db
                        ++ [Trip.mk (next_id (map Trip.id (trips db)))
                              (User.id u) (Schemas.tc_name payload)
                              (Schemas.tc_destination payload)
                              (Schemas.tc_start_date payload)
                              (Schemas.tc_end_date payload)]))).
    { rewrite map_app. apply in_or_app. right. left. reflexivity. }
    pose proof (next_id_above _ _ Hin). lia.
Qed.

Lemma create_trip_keeps_store_witness :
  exists trip db',
    Trips.create_trip sample_trip bob sample_db = (Return trip, db')
    /\ trips_unique db'
    /\ Trips._get_trip_or_404 db' 1 = Return trip1.
Proof.
  destruct (create_trip_keeps_store sample_trip bob sample_db)
    as (trip & db' & Hrun & _ & Huniq & Hold & _).
  exists trip, db'. split; [exact Hrun |]. split.
  - apply Huniq. exact sample_trips_unique.
  - apply Hold. reflexivity.
Defined.

(** ** Updating and deleting a trip *)

Lemma update_first_found {A} (p : A -> bool) (f : A -> A) (l : list A) (x : A) :
  find p l = Some x -> p (f x) = true ->
  find p (update_first p f l) = Some (f x).
Proof.
  induction l as [| a l IH]; cbn; [discriminate |].
  destruct (p a) eqn:Ea; intros H Hf.
  - injection H as ->. cbn. rewrite Hf. reflexivity.
  - cbn. rewrite Ea. apply IH; assumption.
Qed.

Lemma update_first_other {A} (p q : A -> bool) (f : A -> A) (l : list A) :
  (forall x, p x = true -> q x = false) ->
  (forall x, p x = true -> q (f x) = false) ->
  find q (update_first p f l) = find q l.
Proof.
  intros Hpq Hpf. induction l as [| a l IH]; cbn; [reflexivity |].
  destruct (p a) eqn:Ea; cbn.
  - rewrite (Hpq a Ea), (Hpf a Ea). reflexivity.
  - rewrite IH. reflexivity.
Qed.

Lemma update_first_fixed {A} (p : A -> bool) (f : A -> A) (l : list A) :
  (forall x, f x = x) -> update_first p f l = l.
Proof.
  intros Hf. induction l as [| a l IH]; cbn; [reflexivity |].
  destruct (p a); [rewrite Hf | rewrite IH]; reflexivity.
Qed.

Lemma update_first_twice {A} (p : A -> bool) (f : A -> A) (l : list A) :
  (forall x, p (f x) = p x) -> (forall x, f (f x) = f x) ->
  update_first p f (update_first p f l) = update_first p f l.
Proof.
  intros Hp Hf. induction l as [| a l IH]; cbn; [reflexivity |].
  destruct (p a) eqn:Ea; cbn.
  - rewrite Hp, Ea, Hf. reflexivity.
  - rewrite Ea, IH. reflexivity.
Qed.

Lemma update_trip_runs (db : Db) (trip_id : Z) (trip : Trip.t)
    (payload : Schemas.TripUpdate) (u : User.t) :
  Trips._get_trip_or_404 db trip_id = Return trip ->
  is_owner trip u ->
  Trips.update_trip trip_id payload u db
  = (Return (Trips.apply_update payload trip),
     set_trips db
       (update_first (fun t => Trip.id t =? trip_id)
          (Trips.apply_update payload) (trips db))).
Proof.
  intros Htrip Hown.
  unfold Trips.update_trip, h_bind, h_read, h_write, h_ret.
  rewrite Htrip, (ensure_owner_ok _ _ Hown). reflexivity.
Qed.



(** X5: a partial update is idempotent, and an update that sets no field
    leaves the store as it was. *)
Theorem update_trip_idempotent (db : Db) (trip_id : Z) (trip : Trip.t)
    (payload : Schemas.TripUpdate) (u : User.t) :
  Trips._get_trip_or_404 db trip_id = Return trip ->
  is_owner trip u ->
  Trips.update_trip trip_id payload u
    (snd (Trips.update_trip trip_id payload u db))
  = Trips.update_trip trip_id payload u db
  /\ Trips.update_trip trip_id no_change u db = (Return trip, db).
Proof.
  intros Htrip Hown.
  destruct (get_trip_or_404_found _ _ _ Htrip) as (Hfind & _ & Hid).
  assert (Hfix : forall t, Trips.apply_update no_change t = t)
    by (intros []; reflexivity).
  split.
  - rewrite (update_trip_runs _ _ _ payload _ Htrip Hown). cbn [snd].
    rewrite (update_trip_runs _ _ (Trips.apply_update payload trip)).
    + f_equal.
      * destruct payload as [[n |] [d |] [s |] [e |]]; reflexivity.
      * unfold set_trips. cbn [trips trip_members events budget_envelopes
                                 expenses weather_alerts].
        rewrite update_first_twice; [reflexivity | |]; intros x.
        -- reflexivity.
        -- destruct payload as [[n |] [d |] [s |] [e |]]; reflexivity.
    + unfold Trips._get_trip_or_404. cbn [trips set_trips].
      rewrite (update_first_found _ (Trips.apply_update payload) _ _ Hfind);
        [reflexivity |].
      cbn [Trips.apply_update Trip.id]. lia.
    + unfold is_owner. cbn [Trips.apply_update Trip.owner_id]. exact Hown.
  - rewrite (update_trip_runs _ _ _ no_change _ Htrip Hown).
    rewrite Hfix, (update_first_fixed _ _ _ Hfix).
    destruct db; reflexivity.
Qed.

Lemma update_trip_idempotent_witness :
  Trips.update_trip 1 (rename "Autumn") alice
    (snd (Trips.update_trip 1 (rename "Autumn") alice sample_db))
  = Trips.update_trip 1 (rename "Autumn") alice sample_db
  /\ Trips.update_trip 1 no_change alice sample_db = (Return trip1, sample_db).
Proof.
  exact (update_trip_idempotent sample_db 1 trip1 (rename "Autumn") alice
           eq_refl eq_refl).
Defined.

Lemma find_filter_out {A} (p q : A -> bool) (l : list A) :
  (forall x, q x = true -> p x = true) ->
  find q (filter p l) = find q l.
Proof.
  intros H. induction l as [| a l IH]; cbn; [reflexivity |].
  destruct (p a) eqn:Ep; cbn.
  - destruct (q a); [reflexivity | exact IH].
  - destruct (q a) eqn:Eq; [| exact IH].
    rewrite (H a Eq) in Ep. discriminate.
Qed.

(** X6: after the owner deletes a trip, no stored trip has its id, so
    every later request for it, by anyone, is answered 404, a second delete
    included; every other trip is looked up as before and ids stay
    unique. *)
Theorem delete_then_read (db : Db) (trip_id : Z) (trip : Trip.t) (u : User.t) :
  Trips._get_trip_or_404 db trip_id = Return trip ->
  is_owner trip u ->
  exists db',
    Trips.delete_trip trip_id u db = (Return tt, db')
    /\ ~ In trip_id (map Trip.id (trips db'))
    /\ (forall v,
          Trips.get_trip trip_id v db' = (Raise Trips.trip_not_found, db')
          /\ Trips.delete_trip trip_id v db'
             = (Raise Trips.trip_not_found, db'))
    /\ (forall other,
          other <> trip_id ->
          Trips._get_trip_or_404 db' other = Trips._get_trip_or_404 db other)
    /\ (trips_unique db -> trips_unique db').
Proof.
  intros Htrip Hown.
  destruct (get_trip_or_404_found _ _ _ Htrip) as (_ & _ & Hid).
  eexists. split.
  { unfold Trips.delete_trip, h_bind, h_read, h_write.
    rewrite Htrip, (ensure_owner_ok _ _ Hown). reflexivity. }
  rewrite Hid. cbn [trips Trips.delete_cascade].
  assert (Hgone : forall t,
             In t (filter (fun t => negb (Trip.id t =? trip_id)) (trips db)) ->
             Trip.id t <> trip_id).
  { intros t Ht. apply filter_In in Ht. destruct Ht as [_ Ht].
    apply negb_true_iff, Z.eqb_neq in Ht. exact Ht. }
  split.
  { intros Hin. apply in_map_iff in Hin. destruct Hin as (t & Ht & Hin).
    exact (Hgone t Hin Ht). }
  split.
  { intros v.
    unfold Trips.get_trip, Trips.delete_trip, h_bind, h_read.
    rewrite get_trip_or_404_missing; [split; reflexivity |].
    exact Hgone. }
  split.
  { intros other Hother. unfold Trips._get_trip_or_404.
    cbn [trips Trips.delete_cascade].
    rewrite find_filter_out; [reflexivity |].
    intros x Hx. apply negb_true_iff, Z.eqb_neq. lia. }
  unfold trips_unique. cbn [trips Trips.delete_cascade].
  generalize (trips db). intros l Hnd.
  induction l as [| a l IH]; cbn [filter map]; [constructor |].
  cbn [map] in Hnd. inversion Hnd as [| i ids Hnot Hnd']; subst.
  destruct (negb _); [| apply IH, Hnd'].
  cbn [map]. constructor; [| apply IH, Hnd'].
  intros Hmem. apply Hnot. apply in_map_iff in Hmem.
  destruct Hmem as (x & Hx & Hxin). apply filter_In in Hxin.
  rewrite <- Hx. apply in_map. apply Hxin.
Qed.

Lemma delete_then_read_witness :
  exists db',
    Trips.delete_trip 1 alice sample_db = (Return tt, db')
    /\ Trips.get_trip 1 alice db' = (Raise Trips.trip_not_found, db').
Proof.
  destruct (delete_then_read sample_db 1 trip1 alice eq_refl eq_refl)
    as (db' & Hrun & _ & Hgone & _).
  exists db'. split; [exact Hrun | apply Hgone].
Defined.

(** ** The membership table *)

Lemma map_update_first {A B} (g : A -> B) (p : A -> bool) (f : A -> A)
    (l : list A) :
  (forall x, g (f x) = g x) -> map g (update_first p f l) = map g l.
Proof.
  intros Hg. induction l as [| a l IH]; cbn; [reflexivity |].
  destruct (p a); cbn; [rewrite Hg | rewrite IH]; reflexivity.
Qed.

Lemma NoDup_map_filter {A B} (g : A -> B) (p : A -> bool) (l : list A) :
  NoDup (map g l) -> NoDup (map g (filter p l)).
Proof.
  induction l as [| a l IH]; intros Hnd; cbn [filter map]; [constructor |].
  cbn [map] in Hnd. inversion Hnd as [| i ids Hnot Hnd']; subst.
  destruct (p a); [| apply IH, Hnd'].
  cbn [map]. constructor; [| apply IH, Hnd'].
  intros Hmem. apply Hnot. apply in_map_iff in Hmem.
  destruct Hmem as (x & Hx & Hxin). apply filter_In in Hxin.
  rewrite <- Hx. apply in_map. apply Hxin.
Qed.

Lemma NoDup_map_inj {A B} (g : A -> B) (l : list A) (a b : A) :
  NoDup (map g l) -> In a l -> In b l -> g a = g b -> a = b.
Proof.
  induction l as [| x l IH]; intros Hnd Ha Hb E; [contradiction |].
  cbn [map] in Hnd. inversion Hnd as [| i ids Hnot Hnd']; subst.
  destruct Ha as [-> | Ha]; destruct Hb as [-> | Hb].
  - reflexivity.
  - exfalso. apply Hnot. rewrite E. apply in_map. exact Hb.
  - exfalso. apply Hnot. rewrite <- E. apply in_map. exact Ha.
  - apply IH; assumption.
Qed.

Lemma find_filter {A} (p q : A -> bool) (l : list A) :
  find q (filter p l) = find (fun x => p x && q x) l.
Proof.
  induction l as [| a l IH]; cbn; [reflexivity |].
  destruct (p a); cbn; [destruct (q a); [reflexivity | exact IH] | exact IH].
Qed.

Lemma find_app_miss {A} (q : A -> bool) (l : list A) (x : A) :
  q x = false -> find q (l ++ [x]) = find q l.
Proof.
  intros Hx. induction l as [| a l IH]; cbn.
  - rewrite Hx. reflexivity.
  - destruct (q a); [reflexivity | exact IH].
Qed.

Lemma update_first_same {A} (p : A -> bool) (f : A -> A) (l : list A) (x : A) :
  find p l = Some x -> f x = x -> update_first p f l = l.
Proof.
  induction l as [| a l IH]; cbn; [discriminate |].
  destruct (p a); intros H Hf.
  - injection H as ->. rewrite Hf. reflexivity.
  - rewrite IH; [reflexivity | assumption | assumption].
Qed.

Lemma filter_out_fresh (l : list TripMember.t) (m : TripMember.t) :
  ~ In (TripMember.id m) (map TripMember.id l) ->
  filter (fun r => negb (TripMember.id r =? TripMember.id m)) (l ++ [m]) = l.
Proof.
  intros Hfresh. rewrite filter_app. cbn. rewrite Z.eqb_refl. cbn.
  rewrite app_nil_r.
  induction l as [| a l IH]; cbn; [reflexivity |].
  destruct (Z.eqb_spec (TripMember.id a) (TripMember.id m)) as [E | _].
  - exfalso. apply Hfresh. left. exact E.
  - cbn. rewrite IH; [reflexivity |].
    intros Hin. apply Hfresh. right. exact Hin.
Qed.

(** The role lookup of the weather router reads the first row of the pair. *)
Lemma user_role_by_row (db : Db) (trip : Trip.t) (uid : Z) :
  Trip.owner_id trip <> uid ->
  Weather._user_role_for_trip db trip uid
  = option_map TripMember.role
      (find (Trips.is_row (Trip.id trip) uid) (trip_members db)).
Proof.
  intros Hnot. unfold Weather._user_role_for_trip, members.
  destruct (Z.eqb_spec (Trip.owner_id trip) uid); [contradiction |].
  rewrite find_filter. unfold Trips.is_row.
  destruct (find _ (trip_members db)); reflexivity.
Qed.

Lemma upsert_runs (db : Db) (trip_id : Z) (payload : Trips.TripMemberUpsert)
    (u : User.t) (trip : Trip.t) :
  Trips._get_trip_or_404 db trip_id = Return trip ->
  is_owner trip u ->
  Trips.add_or_update_member trip_id payload u db
  = match find (Trips.is_row trip_id (Trips.user_id payload))
            (trip_members db) with
    | Some member =>
        (Return (TripMember.set_role (Trips.role payload) member),
         set_trip_members db
           (update_first (Trips.is_row trip_id (Trips.user_id payload))
              (TripMember.set_role (Trips.role payload)) (trip_members db)))
    | None =>
        (Return
           (TripMember.mk (next_id (map TripMember.id (trip_members db)))
              trip_id (Trips.user_id payload) (Trips.role payload)),
         set_trip_members db
           (trip_members db
            ++ [TripMember.mk (next_id (map TripMember.id (trip_members db)))
                  trip_id (Trips.user_id payload) (Trips.role payload)]))
    end.
Proof.
  intros Htrip Hown. unfold Trips.add_or_update_member, h_bind, h_read.
  rewrite Htrip, (ensure_owner_ok _ _ Hown). reflexivity.
Qed.

Lemma delete_member_runs (db : Db) (trip_id target : Z) (u : User.t)
    (trip : Trip.t) :
  Trips._get_trip_or_404 db trip_id = Return trip ->
  is_owner trip u ->
  Trips.delete_member trip_id target u db
  = match find (Trips.is_row trip_id target) (trip_members db) with
    | None => (Raise Trips.member_not_found, db)
    | Some member =>
        (Return tt,
         set_trip_members db
           (filter (fun m => negb (TripMember.id m =? TripMember.id member))
              (trip_members db)))
    end.
Proof.
  intros Htrip Hown. unfold Trips.delete_member, h_bind, h_read.
  rewrite Htrip, (ensure_owner_ok _ _ Hown). reflexivity.
Qed.

Lemma upsert_outcomes (db : Db) (trip_id : Z) (payload : Trips.TripMemberUpsert)
    (u : User.t) :
  snd (Trips.add_or_update_member trip_id payload u db) = db
  \/ (exists m,
        find (Trips.is_row trip_id (Trips.user_id payload)) (trip_members db)
        = Some m
        /\ snd (Trips.add_or_update_member trip_id payload u db)
           = set_trip_members db
               (update_first (Trips.is_row trip_id (Trips.user_id payload))
                  (TripMember.set_role (Trips.role payload))
                  (trip_members db)))
  \/ (find (Trips.is_row trip_id (Trips.user_id payload)) (trip_members db)
      = None
      /\ snd (Trips.add_or_update_member trip_id payload u db)
         = set_trip_members db
             (trip_members db
              ++ [TripMember.mk (next_id (map TripMember.id (trip_members db)))
                    trip_id (Trips.user_id payload) (Trips.role payload)])).
Proof.
  unfold Trips.add_or_update_member, h_bind, h_read.
  destruct (Trips._get_trip_or_404 db trip_id) as [trip |]; [| left; reflexivity].
  destruct (Trips._ensure_owner trip (User.id u)); [| left; reflexivity].
  destruct (find _ (trip_members db)) as [m |] eqn:E.
  - right. left. exists m. split; reflexivity.
  - right. right. split; reflexivity.
Qed.

Lemma delete_member_outcomes (db : Db) (trip_id target : Z) (u : User.t) :
  snd (Trips.delete_member trip_id target u db) = db
  \/ exists m,
       snd (Trips.delete_member trip_id target u db)
       = set_trip_members db
           (filter (fun r => negb (TripMember.id r =? TripMember.id m))
              (trip_members db)).
Proof.
  unfold Trips.delete_member, h_bind, h_read.
  destruct (Trips._get_trip_or_404 db trip_id) as [trip |]; [| left; reflexivity].
  destruct (Trips._ensure_owner trip (User.id u)); [| left; reflexivity].
  destruct (find _ (trip_members db)) as [m |]; [| left; reflexivity].
  right. exists m. reflexivity.
Qed.

(** X7: the member upsert and the member removal keep the membership
    table well formed, whoever calls them and whatever they answer: row ids
    stay unique and no (trip, user) pair gets a second row. *)
Theorem membership_stays_unique (db : Db) (trip_id target : Z)
    (payload : Trips.TripMemberUpsert) (u : User.t) :
  members_unique db ->
  members_unique (snd (Trips.add_or_update_member trip_id payload u db))
  /\ members_unique (snd (Trips.delete_member trip_id target u db)).
Proof.
  intros [Hids Hkeys]. split.
  - destruct (upsert_outcomes db trip_id payload u)
      as [-> | [(m & Hfind & ->) | (Hfind & ->)]].
    + split; assumption.
    + unfold members_unique. cbn [trip_members set_trip_members].
      rewrite !map_update_first; [split; assumption | |];
        intros x; reflexivity.
    + unfold members_unique. cbn [trip_members set_trip_members].
      rewrite !map_app. cbn [map TripMember.id member_key
                               TripMember.trip_id TripMember.user_id].
      split.
      * apply NoDup_app; [exact Hids | repeat constructor; intros [] |].
        intros a Ha [<- | []]. pose proof (next_id_above _ _ Ha). lia.
      * apply NoDup_app; [exact Hkeys | repeat constructor; intros [] |].
        intros a Ha [<- | []]. apply in_map_iff in Ha.
        destruct Ha as (r & Hr & Hin).
        pose proof (find_none _ _ Hfind r Hin) as Hrow.
        unfold Trips.is_row in Hrow. unfold member_key in Hr.
        injection Hr as Ht Hu. rewrite Ht, Hu, !Z.eqb_refl in Hrow.
        discriminate.
  - destruct (delete_member_outcomes db trip_id target u) as [-> | (m & ->)].
    + split; assumption.
    + unfold members_unique. cbn [trip_members set_trip_members].
      split; apply NoDup_map_filter; assumption.
Qed.

Lemma sample_members_unique : members_unique sample_db.
Proof.
  split; cbn; repeat constructor; cbn; intuition discriminate.
Qed.

Lemma membership_stays_unique_witness :
  members_unique
    (snd (Trips.add_or_update_member 1 (Trips.mk_upsert 4 "viewer") alice
            sample_db))
  /\ members_unique (snd (Trips.delete_member 1 2 alice sample_db)).
Proof.
  exact (membership_stays_unique sample_db 1 2 (Trips.mk_upsert 4 "viewer")
           alice sample_members_unique).
Defined.

(** X8: after the owner upserts a member, the user has a membership row,
    reads the trip, and (when not the owner) has exactly the given role in
    the weather router's role lookup; the role lookup of every other user
    of the trip is as before. *)
Theorem upsert_then_role (db : Db) (trip_id : Z)
    (payload : Trips.TripMemberUpsert) (u : User.t) (trip : Trip.t) :
  Trips._get_trip_or_404 db trip_id = Return trip ->
  is_owner trip u ->
  exists m db',
    Trips.add_or_update_member trip_id payload u db = (Return m, db')
    /\ has_row db' trip_id (Trips.user_id payload)
    /\ (forall v, User.id v = Trips.user_id payload ->
          Trips.get_trip trip_id v db' = (Return trip, db'))
    /\ (Trip.owner_id trip <> Trips.user_id payload ->
        Weather._user_role_for_trip db' trip (Trips.user_id payload)
        = Some (Trips.role payload))
    /\ forall other,
         other <> Trips.user_id payload ->
         Weather._user_role_for_trip db' trip other
         = Weather._user_role_for_trip db trip other.
Proof.
  intros Htrip Hown.
  destruct (get_trip_or_404_found _ _ _ Htrip) as (_ & _ & Hid).
  set (target := Trips.user_id payload).
  set (role := Trips.role payload).
  set (db' := snd (Trips.add_or_update_member trip_id payload u db)).
  assert (Hrun : exists m,
             Trips.add_or_update_member trip_id payload u db = (Return m, db')).
  { unfold db'. rewrite (upsert_runs _ _ _ _ _ Htrip Hown).
    destruct (find _ (trip_members db)); eexists; reflexivity. }
  assert (Hrow : exists m',
             find (Trips.is_row trip_id target) (trip_members db') = Some m'
             /\ TripMember.role m' = role).
  { unfold db'. rewrite (upsert_runs _ _ _ _ _ Htrip Hown).
    fold target role.
    destruct (find _ (trip_members db)) as [m |] eqn:E;
      cbn [snd trip_members set_trip_members].
    - exists (TripMember.set_role role m). split; [| reflexivity].
      apply update_first_found; [exact E |].
      apply find_some in E. exact (proj2 E).
    - exists (TripMember.mk (next_id (map TripMember.id (trip_members db)))
                trip_id target role).
      split; [| reflexivity].
      apply find_appended.
      + intros y Hy. exact (find_none _ _ E y Hy).
      + unfold Trips.is_row. cbn. rewrite !Z.eqb_refl. reflexivity. }
  assert (Hothers : forall other,
             other <> target ->
             find (Trips.is_row trip_id other) (trip_members db')
             = find (Trips.is_row trip_id other) (trip_members db)).
  { intros other Hother. unfold db'.
    rewrite (upsert_runs _ _ _ _ _ Htrip Hown). fold target role.
    destruct (find (Trips.is_row trip_id target) (trip_members db));
      cbn [snd trip_members set_trip_members].
    - apply update_first_other; intros x Hx;
        unfold Trips.is_row in *; cbn [TripMember.set_role TripMember.trip_id
                                         TripMember.user_id];
        apply andb_true_iff in Hx; destruct Hx as [_ Hx];
        apply andb_false_iff; right; lia.
    - apply find_app_miss. unfold Trips.is_row. cbn.
      apply andb_false_iff. right. lia. }
  assert (Htrips : trips db' = trips db).
  { unfold db'. rewrite (upsert_runs _ _ _ _ _ Htrip Hown).
    destruct (find _ (trip_members db)); reflexivity. }
  destruct Hrun as [m Hrun]. destruct Hrow as (m' & Hfind' & Hrole').
  exists m, db'. split; [exact Hrun |].
  assert (Hhas : has_row db' trip_id target)
    by (apply has_row_find; eauto).
  split; [exact Hhas |].
  split; [| split].
  - intros v Hv. unfold Trips.get_trip, h_read, Trips._get_trip_or_404.
    rewrite Htrips. fold (Trips._get_trip_or_404 db trip_id).
    rewrite Htrip. cbn [py_bind].
    rewrite ensure_member_or_owner_ok; [reflexivity |].
    right. destruct Hhas as (r & Hin & Ht & Hu).
    exists r. split; [| congruence].
    apply filter_In. split; [exact Hin | lia].
  - intros Hnot. rewrite (user_role_by_row _ _ _ Hnot), Hid, Hfind'.
    cbn. rewrite Hrole'. reflexivity.
  - intros other Hother.
    unfold Weather._user_role_for_trip, members.
    destruct (Trip.owner_id trip =? other); [reflexivity |].
    rewrite !find_filter, Hid.
    change (fun x => (TripMember.trip_id x =? trip_id)
                     && (TripMember.user_id x =? other))
      with (Trips.is_row trip_id other).
    rewrite (Hothers other Hother). reflexivity.
Qed.

Lemma upsert_then_role_witness :
  exists m db',
    Trips.add_or_update_member 1 (Trips.mk_upsert 4 "editor") alice sample_db
    = (Return m, db')
    /\ Trips.get_trip 1 dave db' = (Return trip1, db')
    /\ Weather._user_role_for_trip db' trip1 4 = Some "editor".
Proof.
  destruct (upsert_then_role sample_db 1 (Trips.mk_upsert 4 "editor") alice
              trip1 eq_refl eq_refl)
    as (m & db' & Hrun & _ & Hread & Hrole & _).
  exists m, db'. split; [exact Hrun |]. split.
  - apply Hread. reflexivity.
  - apply Hrole. discriminate.
Defined.

(** X9: the member upsert is idempotent: the same request a second time
    returns the same row and leaves the store as the first call left it. *)
Theorem upsert_idempotent (db : Db) (trip_id : Z)
    (payload : Trips.TripMemberUpsert) (u : User.t) (trip : Trip.t) :
  Trips._get_trip_or_404 db trip_id = Return trip ->
  is_owner trip u ->
  Trips.add_or_update_member trip_id payload u
    (snd (Trips.add_or_update_member trip_id payload u db))
  = Trips.add_or_update_member trip_id payload u db.
Proof.
  intros Htrip Hown.
  rewrite (upsert_runs db _ _ _ _ Htrip Hown).
  set (p := Trips.is_row trip_id (Trips.user_id payload)).
  set (f := TripMember.set_role (Trips.role payload)).
  destruct (find p (trip_members db)) as [m |] eqn:E; cbn [snd].
  - assert (Hfound : find p (update_first p f (trip_members db)) = Some (f m)).
    { apply update_first_found; [exact E |].
      apply find_some in E. exact (proj2 E). }
    rewrite (upsert_runs _ _ _ _ trip); [| exact Htrip | exact Hown].
    cbn [trip_members set_trip_members]. fold p f. rewrite Hfound.
    rewrite (update_first_same p f _ (f m) Hfound); [| reflexivity].
    destruct db; reflexivity.
  - set (m := TripMember.mk (next_id (map TripMember.id (trip_members db)))
                trip_id (Trips.user_id payload) (Trips.role payload)).
    assert (Hfound : find p (trip_members db ++ [m]) = Some m).
    { apply find_appended.
      - intros y Hy. exact (find_none _ _ E y Hy).
      - unfold p, Trips.is_row. cbn. rewrite !Z.eqb_refl. reflexivity. }
    rewrite (upsert_runs _ _ _ _ trip); [| exact Htrip | exact Hown].
    cbn [trip_members set_trip_members]. fold p f. rewrite Hfound.
    rewrite (update_first_same p f _ m Hfound); [| reflexivity].
    destruct db; reflexivity.
Qed.

Lemma upsert_idempotent_witness :
  Trips.add_or_update_member 1 (Trips.mk_upsert 4 "viewer") alice
    (snd (Trips.add_or_update_member 1 (Trips.mk_upsert 4 "viewer") alice
            sample_db))
  = Trips.add_or_update_member 1 (Trips.mk_upsert 4 "viewer") alice sample_db.
Proof.
  exact (upsert_idempotent sample_db 1 (Trips.mk_upsert 4 "viewer") alice trip1
           eq_refl eq_refl).
Defined.

(** X10: adding a member who had no row and then removing that member
    gives back the store as it was before the two calls. *)
Theorem insert_then_remove_restores (db : Db) (trip_id : Z)
    (payload : Trips.TripMemberUpsert) (u : User.t) (trip : Trip.t) :
  Trips._get_trip_or_404 db trip_id = Return trip ->
  is_owner trip u ->
  ~ has_row db trip_id (Trips.user_id payload) ->
  Trips.delete_member trip_id (Trips.user_id payload) u
    (snd (Trips.add_or_update_member trip_id payload u db))
  = (Return tt, db).
Proof.
  intros Htrip Hown Hno.
  rewrite (upsert_runs db _ _ _ _ Htrip Hown), (no_row_find _ _ _ Hno).
  cbn [snd].
  set (m := TripMember.mk (next_id (map TripMember.id (trip_members db)))
              trip_id (Trips.user_id payload) (Trips.role payload)).
  rewrite (delete_member_runs _ _ _ _ trip); [| exact Htrip | exact Hown].
  cbn [trip_members set_trip_members].
  rewrite (find_appended _ _ m).
  - rewrite filter_out_fresh; [destruct db; reflexivity |].
    intros Hin. pose proof (next_id_above _ _ Hin). cbn in H. lia.
  - intros y Hy. exact (find_none _ _ (no_row_find _ _ _ Hno) y Hy).
  - unfold Trips.is_row. cbn. rewrite !Z.eqb_refl. reflexivity.
Qed.

Lemma insert_then_remove_restores_witness :
  Trips.delete_member 1 4 alice
    (snd (Trips.add_or_update_member 1 (Trips.mk_upsert 4 "viewer") alice
            sample_db))
  = (Return tt, sample_db).
Proof.
  apply (insert_then_remove_restores sample_db 1 (Trips.mk_upsert 4 "viewer")
           alice trip1 eq_refl eq_refl).
  intros (m & Hin & Ht & Hu). cbn in Hin.
  destruct Hin as [<- | [<- | []]]; cbn in Hu; discriminate.
Defined.

Lemma filter_out_one_length (p : TripMember.t -> bool) (l : list TripMember.t)
    (m : TripMember.t) :
  NoDup (map TripMember.id l) -> In m l -> p m = true ->
  List.length (filter p l)
  = S (List.length
         (filter p
            (filter (fun r => negb (TripMember.id r =? TripMember.id m)) l))).
Proof.
  induction l as [| a l IH]; intros Hnd Hin Hp; [contradiction |].
  cbn [map] in Hnd. inversion Hnd as [| i ids Hnot Hnd']; subst.
  destruct Hin as [-> | Hin].
  - cbn [filter]. rewrite Z.eqb_refl, Hp. cbn [negb List.length]. f_equal.
    f_equal. f_equal. symmetry.
    clear IH Hnd Hnd'. induction l as [| b l IH]; cbn; [reflexivity |].
    destruct (Z.eqb_spec (TripMember.id b) (TripMember.id m)) as [E | _].
    + exfalso. apply Hnot. left. exact E.
    + cbn. rewrite IH; [reflexivity |].
      intros H. apply Hnot. right. exact H.
  - cbn [filter].
    destruct (Z.eqb_spec (TripMember.id a) (TripMember.id m)) as [E | _].
    + exfalso. apply Hnot. rewrite E. apply in_map. exact Hin.
    + cbn [negb filter]. destruct (p a); cbn [List.length];
        rewrite (IH Hnd' Hin Hp); reflexivity.
Qed.

(** X11: in a well-formed membership table, after the owner removes a
    member the pair has no row left, the trip has one member fewer, the
    rows of every other pair are kept, and the removed user, unless the
    owner, is refused when reading the trip. *)
Theorem remove_revokes_access (db : Db) (trip_id target : Z) (u : User.t)
    (trip : Trip.t) :
  Trips._get_trip_or_404 db trip_id = Return trip ->
  is_owner trip u ->
  has_row db trip_id target ->
  members_unique db ->
  exists db',
    Trips.delete_member trip_id target u db = (Return tt, db')
    /\ ~ has_row db' trip_id target
    /\ S (member_count db' trip) = member_count db trip
    /\ (forall m, In m (trip_members db) ->
          member_key m <> (trip_id, target) -> In m (trip_members db'))
    /\ (forall v, User.id v = target -> ~ is_owner trip v ->
          Trips.get_trip trip_id v db' = (Raise Trips.forbidden_member, db')).
Proof.
  intros Htrip Hown Hrow [Hids Hkeys].
  destruct (get_trip_or_404_found _ _ _ Htrip) as (_ & _ & Hid).
  apply has_row_find in Hrow. destruct Hrow as [m Hfind].
  pose proof (find_some _ _ Hfind) as [Hin Hm].
  apply andb_true_iff in Hm. destruct Hm as [Ht Hu].
  eexists. split.
  { rewrite (delete_member_runs _ _ _ _ _ Htrip Hown), Hfind. reflexivity. }
  assert (Hgone : ~ has_row
                      (set_trip_members db
                         (filter
                            (fun r => negb (TripMember.id r =? TripMember.id m))
                            (trip_members db)))
                      trip_id target).
  { intros (r & Hr & Hrt & Hru). cbn [trip_members set_trip_members] in Hr.
    apply filter_In in Hr. destruct Hr as [Hr Hneq].
    assert (r = m).
    { apply (NoDup_map_inj member_key (trip_members db)); try assumption.
      unfold member_key. f_equal; lia. }
    subst r. rewrite Z.eqb_refl in Hneq. discriminate. }
  split; [exact Hgone |].
  split; [| split].
  - unfold member_count, members. cbn [trip_members set_trip_members].
    symmetry. apply filter_out_one_length; [exact Hids | exact Hin | lia].
  - intros r Hr Hkey. cbn [trip_members set_trip_members].
    apply filter_In. split; [exact Hr |].
    apply negb_true_iff, Z.eqb_neq. intros E. apply Hkey.
    assert (r = m)
      by (apply (NoDup_map_inj TripMember.id (trip_members db));
          assumption).
    subst r. unfold member_key. f_equal; lia.
  - intros v Hv Hnot.
    unfold Trips.get_trip, h_read.
    change (Trips._get_trip_or_404
              (set_trip_members db
                 (filter (fun r => negb (TripMember.id r =? TripMember.id m))
                    (trip_members db)))
              trip_id)
      with (Trips._get_trip_or_404 db trip_id).
    rewrite Htrip. cbn [py_bind].
    rewrite ensure_member_or_owner_forbidden; [reflexivity |].
    intros [Ho | (r & Hr & Hru)]; [contradiction |].
    apply Hgone. apply filter_In in Hr. destruct Hr as [Hr Hrt].
    exists r. repeat split; [exact Hr | lia | congruence].
Qed.

Lemma remove_revokes_access_witness :
  exists db',
    Trips.delete_member 1 2 alice sample_db = (Return tt, db')
    /\ S (member_count db' trip1) = member_count sample_db trip1
    /\ Trips.get_trip 1 bob db' = (Raise Trips.forbidden_member, db').
Proof.
  assert (Hrow : has_row sample_db 1 2).
  { exists (TripMember.mk 1 1 2 "viewer"). cbn. auto. }
  destruct (remove_revokes_access sample_db 1 2 alice trip1 eq_refl eq_refl
              Hrow sample_members_unique)
    as (db' & Hrun & _ & Hcount & _ & Hrefused).
  exists db'. split; [exact Hrun |]. split; [exact Hcount |].
  apply Hrefused; [reflexivity | discriminate].
Defined.

(** * Further properties of the weather service *)

(** ** Who may see the weather *)

(** X12: the weather router never admits a caller whom the trips router
    refuses to read the trip; when no membership row of the trip has an
    empty role, the two checks admit the same callers. *)
Theorem weather_access_within_read_access (db : Db) (trip : Trip.t)
    (u : User.t) :
  (Weather._require_view_access db trip (User.id u) = Return tt ->
   Trips._ensure_member_or_owner db trip (User.id u) = Return tt)
  /\ ((forall m, In m (members db trip) -> TripMember.role m <> EmptyString) ->
      Trips._ensure_member_or_owner db trip (User.id u) = Return tt ->
      Weather._require_view_access db trip (User.id u) = Return tt).
Proof.
  split.
  - intros Hview. destruct (may_read_decidable db trip u) as [Hread | Hno].
    + apply ensure_member_or_owner_ok. exact Hread.
    + rewrite (require_view_access_forbidden _ _ _ Hno) in Hview.
      discriminate.
  - intros Hroles Hread.
    destruct (may_read_decidable db trip u) as [[Hown | Hmem] | Hno].
    + apply require_view_access_ok. left. exact Hown.
    + apply require_view_access_ok. right. split; [exact Hmem |].
      intros m Hin _. apply Hroles. exact Hin.
    + rewrite (ensure_member_or_owner_forbidden _ _ _ Hno) in Hread.
      discriminate.
Qed.

Lemma weather_access_within_read_access_witness :
  Trips._ensure_member_or_owner sample_db trip1 (User.id bob) = Return tt.
Proof.
  apply (proj1 (weather_access_within_read_access sample_db trip1 bob)).
  reflexivity.
Defined.

(** ** Geocoding *)

(** X13: geocoding returns coordinates exactly when the provider answers
    with a 2xx status and a body whose result list is non-empty and whose
    first result has both coordinates; the coordinates are those of the
    first result, whatever follows it. *)
Theorem geocode_found_iff (name : string)
    (net : option (WeatherClient.Response WeatherClient.GeoData))
    (lat lon : Q) :
  WeatherClient.geocode_city name net = Return (Some (lat, lon))
  <-> exists code rest,
        200 <= code <= 299
        /\ net
           = Some (WeatherClient.mk_response code
                     (Some (WeatherClient.mk_geo_data
                              (Some (WeatherClient.mk_geo_result (Some lat)
                                       (Some lon) :: rest))))).
Proof.
  unfold WeatherClient.geocode_city. split.
  - destruct net as [[code body] |]; [| cbn; discriminate].
    cbn. unfold WeatherClient.raise_for_status. cbn.
    destruct ((200 <=? code) && (code <=? 299)) eqn:E; cbn;
      [| discriminate].
    destruct body as [[[[| [[la |] [lo |]] rest] |]] |]; cbn;
      intros H; try discriminate H.
    injection H as <- <-. exists code, rest. split; [lia | reflexivity].
  - intros (code & rest & Hcode & ->). cbn.
    unfold WeatherClient.raise_for_status. cbn.
    replace ((200 <=? code) && (code <=? 299)) with true by lia.
    reflexivity.
Qed.

Lemma geocode_found_iff_witness :
  WeatherClient.geocode_city "Oslo"
    (Weather.geocoding online "Oslo") = Return (Some ((5 # 2)%Q, 7%Q)).
Proof.
  apply geocode_found_iff. exists 200, []. split; [lia | reflexivity].
Defined.

(** ** The forecast *)


Lemma entries_from_in (tmax tmin precip : list Q) (dates : list date) :
  forall idx day,
    In day (entries_from tmax tmin precip idx dates) ->
    exists i d, day = entry_at tmax tmin precip i d.
Proof.
  induction dates as [| d rest IH]; intros idx day H; [contradiction |].
  destruct H as [<- | H]; [eauto | exact (IH _ _ H)].
Qed.

(** The integer probability reported passes an integer threshold exactly
    when the probability does. *)
Lemma threshold_on_reported (z : Z) (p : Q) :
  0 < z -> (z # 1 <= p)%Q <-> z <= py_int p.
Proof.
  intros Hz. destruct p as [num den]. unfold Qle, py_int. cbn [Qnum Qden].
  rewrite Z.mul_1_r.
  destruct (Z_lt_le_dec num 0) as [Hneg | Hpos].
  - assert (Hq : Z.quot num (Z.pos den) <= 0).
    { replace num with (- - num) by lia. rewrite Z.quot_opp_l by lia.
      pose proof (Z.quot_pos (- num) (Z.pos den)). lia. }
    split; intros H; [nia | lia].
  - rewrite Z.quot_div_nonneg by lia. split; intros H.
    + apply Z.div_le_lower_bound; lia.
    + pose proof (Z.mul_div_le num (Z.pos den)). nia.
Qed.

(** X14: on every day of every forecast the summary agrees with the
    integer probability returned beside it: "Rainy" exactly from 70,
    "Cloudy" from 40 to 69, "Clear" below 40; and the advice is always one
    of the five texts. *)
Theorem summary_matches_reported_probability (lat lon : Q) (s e : date)
    (net : option (WeatherClient.Response WeatherClient.ForecastData))
    (res : list WeatherClient.ForecastDay) (day : WeatherClient.ForecastDay) :
  WeatherClient.fetch_daily_forecast lat lon s e net = Return res ->
  In day res ->
  ((WeatherClient.summary day = "Rainy" /\ 70 <= WeatherClient.precip_prob day)
   \/ (WeatherClient.summary day = "Cloudy"
       /\ 40 <= WeatherClient.precip_prob day < 70)
   \/ (WeatherClient.summary day = "Clear"
       /\ WeatherClient.precip_prob day < 40))
  /\ In (WeatherClient.advice day)
       [WeatherClient.advice_clear; WeatherClient.advice_rain;
        WeatherClient.advice_showers; WeatherClient.advice_hot;
        WeatherClient.advice_cold].
Proof.
  unfold WeatherClient.fetch_daily_forecast.
  destruct (py_bind _ _) as [daily | ex].
  - rewrite parse_daily_returns. intros H Hin. injection H as <-.
    apply entries_from_in in Hin. destruct Hin as (i & d & ->).
    unfold entry_at, WeatherClient.classify.
    set (p := nth i (precip_of daily) 0%Q).
    pose proof (threshold_on_reported 70 p ltac:(lia)) as H70.
    pose proof (threshold_on_reported 40 p ltac:(lia)) as H40.
    destruct (Qle_bool 70 p) eqn:E70; destruct (Qle_bool 40 p) eqn:E40;
      thresholds;
      destruct (nth_error (tmax_of daily) i) as [h |];
      destruct (nth_error (tmin_of daily) i) as [l |];
      try destruct (Qle_bool 32 h); try destruct (Qle_bool l 35);
      cbn [WeatherClient.summary WeatherClient.advice
             WeatherClient.precip_prob];
      (split; [| cbn; tauto]).
    all: try (left; split; [reflexivity | apply H70; assumption]).
    all: try (exfalso; lra).
    all: try (right; left; split; [reflexivity |];
              split; [apply H40; assumption |];
              destruct (Z_lt_le_dec (py_int p) 70) as [Hlt | Hge];
              [exact Hlt | exfalso; apply E70, H70, Hge]).
    all: right; right; split; [reflexivity |];
      destruct (Z_lt_le_dec (py_int p) 40) as [Hlt | Hge];
      [exact Hlt | exfalso; apply E40, H40, Hge].
  - intros H Hin. injection H as <-. contradiction.
Qed.

Lemma summary_matches_reported_probability_witness :
  (WeatherClient.summary
     (WeatherClient.mk_day day2 21 0 80 "Rainy" WeatherClient.advice_rain)
   = "Rainy"
   /\ 70 <= 80)
  \/ ("Rainy" = "Cloudy" /\ 40 <= 80 < 70)
  \/ ("Rainy" = "Clear" /\ 80 < 40).
Proof.
  exact (proj1 (summary_matches_reported_probability 0 0 day1 day3
                  (forecast_ok ragged_daily) _
                  (WeatherClient.mk_day day2 21 0 80 "Rainy"
                     WeatherClient.advice_rain)
                  eq_refl (or_intror (or_introl eq_refl)))).
Defined.

(** ** The weather endpoint *)




(** ** Writes that are refused *)



(** * Further properties of the export *)








(** ** The page break *)

Lemma draw_line_cursor (st : list Trips.canvas_op * Q) (line : Trips.text) :
  (snd st <= 742)%Q -> (80 <= snd (Trips.draw_line st line) <= 742)%Q.
Proof.
  destruct st as [ops y]. cbn [snd]. intros Hy.
  unfold Trips.draw_line, Trips.Qlt_bool, Trips.height.
  destruct (Qle_bool 80 (y - 14)) eqn:E; cbn [negb snd]; thresholds; lra.
Qed.

Lemma draw_lines_cursor (b : Q) (lines : list Trips.text) :
  forall st,
    (b <= 80)%Q -> (b <= snd st <= 742)%Q ->
    (b <= snd (fold_left Trips.draw_line lines st) <= 742)%Q.
Proof.
  induction lines as [| line lines IH]; intros st Hb Hy; cbn [fold_left];
    [exact Hy |].
  pose proof (draw_line_cursor st line ltac:(lra)).
  apply IH; [exact Hb | lra].
Qed.

Lemma draw_line_within (lo : Q) (st : list Trips.canvas_op * Q)
    (line : Trips.text) :
  (lo <= snd st <= 742)%Q ->
  Forall (drawn_within lo 742) (fst st) ->
  Forall (drawn_within lo 742) (fst (Trips.draw_line st line)).
Proof.
  destruct st as [ops y]. cbn [fst snd]. intros Hy Hops.
  unfold Trips.draw_line.
  assert (Hdrawn : Forall (drawn_within lo 742)
                     (ops ++ [Trips.DrawString 60 y line])).
  { apply Forall_app. split; [exact Hops |].
    constructor; [exact Hy | constructor]. }
  destruct (Trips.Qlt_bool _ _); cbn [fst]; [| exact Hdrawn].
  apply Forall_app. split; [exact Hdrawn |].
  constructor; [exact I | constructor].
Qed.

Lemma draw_lines_within (lo : Q) (lines : list Trips.text) :
  forall st,
    (lo <= 80)%Q -> (lo <= snd st <= 742)%Q ->
    Forall (drawn_within lo 742) (fst st) ->
    Forall (drawn_within lo 742) (fst (fold_left Trips.draw_line lines st)).
Proof.
  induction lines as [| line lines IH]; intros st Hlo Hy Hops;
    cbn [fold_left]; [exact Hops |].
  pose proof (draw_line_cursor st line ltac:(lra)).
  apply IH; [exact Hlo | lra | apply draw_line_within; assumption].
Qed.

Lemma drawn_within_weaken (lo lo' hi hi' : Q) (ops : list Trips.canvas_op) :
  (lo' <= lo)%Q -> (hi <= hi')%Q ->
  Forall (drawn_within lo hi) ops -> Forall (drawn_within lo' hi') ops.
Proof.
  intros Hlo Hhi H. induction H as [| op ops Hop _ IH]; constructor;
    [| exact IH].
  destruct op; cbn in *; [exact I | lra | exact I | exact I].
Qed.

(** The canvas operations written out in [render] are inside the bounds
    once the cursor is. *)
Ltac drawn :=
  repeat first
    [ assumption
    | apply Forall_nil
    | apply Forall_cons; [cbn; first [exact I | lra] |]
    | apply Forall_app; split ].

(** X18: every string of the export is drawn inside the letter page: its
    vertical position lies between 24 and 742 points of the 792, however
    many events, envelopes and alerts the trip has. *)
Theorem export_draws_on_the_page (db : Db) (trip_id : Z) (trip : Trip.t) :
  Forall (drawn_within 24 742) (Trips.body (Trips.render db trip_id trip))
  /\ Forall (drawn_within 0 Trips.height)
       (Trips.body (Trips.render db trip_id trip)).
Proof.
  assert (H : Forall (drawn_within 24 742)
                (Trips.body (Trips.render db trip_id trip))).
  { unfold Trips.render, Trips.height.
    match goal with
    | |- context [fold_left Trips.draw_line (map Trips.event_line ?evs) ?st] =>
        assert (F1 : Forall (drawn_within 24 742)
                       (fst (fold_left Trips.draw_line
                               (map Trips.event_line evs) st)))
          by (apply draw_lines_within; cbn [fst snd]; [lra | lra | drawn]);
        assert (B1 : (80 <= snd (fold_left Trips.draw_line
                                   (map Trips.event_line evs) st) <= 742)%Q)
          by (apply draw_lines_cursor; cbn [snd]; lra);
        destruct (fold_left Trips.draw_line (map Trips.event_line evs) st)
          as [p1 y1]
    end.
    cbn [fst snd] in F1, B1.
    match goal with
    | |- context [fold_left Trips.draw_line
                    (map (Trips.budget_line ?exps) ?envs) ?st] =>
        assert (F2 : Forall (drawn_within 24 742)
                       (fst (fold_left Trips.draw_line
                               (map (Trips.budget_line exps) envs) st)))
          by (apply draw_lines_within; cbn [fst snd]; [lra | lra | drawn]);
        assert (B2 : (52 <= snd (fold_left Trips.draw_line
                                   (map (Trips.budget_line exps) envs) st)
                      <= 742)%Q)
          by (apply draw_lines_cursor; cbn [snd]; lra);
        destruct (fold_left Trips.draw_line
                    (map (Trips.budget_line exps) envs) st) as [p2 y2]
    end.
    cbn [fst snd] in F2, B2.
    destruct (filter _ (weather_alerts db)) as [| a alerts].
    - cbn [Trips.body]. drawn.
    - match goal with
      | |- context [fold_left Trips.draw_line ?ls ?st] =>
          assert (F3 : Forall (drawn_within 24 742)
                         (fst (fold_left Trips.draw_line ls st)))
            by (apply draw_lines_within; cbn [fst snd]; [lra | lra | drawn]);
          destruct (fold_left Trips.draw_line ls st) as [p3 y3]
      end.
      cbn [fst] in F3. cbn [Trips.body]. drawn. }
  split; [exact H |].
  apply (drawn_within_weaken 24 0 742); [lra | unfold Trips.height; lra |].
  exact H.
Qed.

(** ** The order of the export *)

Lemma date_compare_lt (a b : date) :
  Trips.date_compare a b = Lt <-> date_lt a b.
Proof.
  unfold Trips.date_compare, date_lt.
  destruct (Z.compare_spec (year a) (year b));
    destruct (Z.compare_spec (month a) (month b));
    destruct (Z.compare_spec (day a) (day b));
    split; intros; try discriminate; try reflexivity; try lia.
Qed.

Lemma date_compare_eq (a b : date) :
  Trips.date_compare a b = Eq <-> a = b.
Proof.
  unfold Trips.date_compare. destruct a as [ya ma da], b as [yb mb db].
  cbn [year month day].
  destruct (Z.compare_spec ya yb); destruct (Z.compare_spec ma mb);
    destruct (Z.compare_spec da db);
    split; intros E; try discriminate; try (injection E; lia);
    subst; reflexivity.
Qed.

Lemma date_compare_flip (a b : date) :
  Trips.date_compare b a = CompOpp (Trips.date_compare a b).
Proof.
  unfold Trips.date_compare.
  rewrite (Z.compare_antisym (year a)), (Z.compare_antisym (month a)),
    (Z.compare_antisym (day a)).
  destruct (year a ?= year b); destruct (month a ?= month b);
    destruct (day a ?= day b); reflexivity.
Qed.

Lemma time_compare_le (a b : time) :
  Trips.time_compare a b <> Gt <-> time_le a b.
Proof.
  unfold Trips.time_compare, time_le.
  destruct (Z.compare_spec (hour a) (hour b));
    destruct (Z.compare_spec (minute a) (minute b));
    destruct (Z.compare_spec (second a) (second b));
    split; intros; try discriminate; try congruence; try lia.
Qed.

Lemma time_compare_flip (a b : time) :
  Trips.time_compare b a = CompOpp (Trips.time_compare a b).
Proof.
  unfold Trips.time_compare.
  rewrite (Z.compare_antisym (hour a)), (Z.compare_antisym (minute a)),
    (Z.compare_antisym (second a)).
  destruct (hour a ?= hour b); destruct (minute a ?= minute b);
    destruct (second a ?= second b); reflexivity.
Qed.

Lemma event_leb_before (a b : Event.t) :
  Trips.event_leb a b = true <-> event_before a b.
Proof.
  unfold Trips.event_leb, event_before.
  pose proof (date_compare_lt (Event.date_ a) (Event.date_ b)) as Hlt.
  pose proof (date_compare_eq (Event.date_ a) (Event.date_ b)) as Heq.
  destruct (Trips.date_compare (Event.date_ a) (Event.date_ b)).
  - destruct (Event.start_time a) as [ta |];
      destruct (Event.start_time b) as [tb |].
    + pose proof (time_compare_le ta tb) as Hle.
      destruct (Trips.time_compare ta tb); split; intros H.
      * right. split; [apply Heq; reflexivity | apply Hle; discriminate].
      * reflexivity.
      * right. split; [apply Heq; reflexivity | apply Hle; discriminate].
      * reflexivity.
      * discriminate.
      * destruct H as [H | [_ H]].
        -- apply Hlt in H. discriminate.
        -- apply Hle in H. contradiction.
    + split; intros H; [discriminate |].
      destruct H as [H | [_ []]]. apply Hlt in H. discriminate.
    + split; intros H; [| reflexivity].
      right. split; [apply Heq; reflexivity | exact I].
    + split; intros H; [| reflexivity].
      right. split; [apply Heq; reflexivity | exact I].
  - split; intros H; [| reflexivity]. left. apply Hlt. reflexivity.
  - split; intros H; [discriminate |].
    destruct H as [H | [H _]].
    + apply Hlt in H. discriminate.
    + apply Heq in H. discriminate.
Qed.

Lemma event_leb_total (a b : Event.t) :
  Trips.event_leb a b = false -> Trips.event_leb b a = true.
Proof.
  unfold Trips.event_leb. rewrite (date_compare_flip (Event.date_ a)).
  destruct (Trips.date_compare (Event.date_ a) (Event.date_ b)); cbn;
    try discriminate; try reflexivity.
  destruct (Event.start_time a) as [ta |];
    destruct (Event.start_time b) as [tb |]; try discriminate;
    try reflexivity.
  rewrite (time_compare_flip ta).
  destruct (Trips.time_compare ta tb); cbn; try discriminate; reflexivity.
Qed.

Lemma insert_event_perm (e : Event.t) (l : list Event.t) :
  Permutation (Trips.insert_event e l) (e :: l).
Proof.
  induction l as [| x l IH]; cbn; [reflexivity |].
  destruct (Trips.event_leb e x); [reflexivity |].
  rewrite IH. apply perm_swap.
Qed.

Lemma order_events_perm (l : list Event.t) :
  Permutation (Trips.order_events l) l.
Proof.
  unfold Trips.order_events.
  induction l as [| e l IH]; cbn; [constructor |].
  rewrite insert_event_perm. constructor. exact IH.
Qed.

Lemma insert_event_sorted (e : Event.t) (l : list Event.t) :
  Sorted event_before l -> Sorted event_before (Trips.insert_event e l).
Proof.
  induction l as [| x l IH]; intros Hs; cbn.
  - repeat constructor.
  - destruct (Trips.event_leb e x) eqn:E.
    + constructor; [exact Hs |]. constructor. apply event_leb_before, E.
    + inversion Hs as [| ? ? Hs' Hhd]; subst.
      constructor; [apply IH, Hs' |].
      destruct l as [| y l]; cbn.
      * constructor. apply event_leb_before, event_leb_total, E.
      * destruct (Trips.event_leb e y).
        -- constructor. apply event_leb_before, event_leb_total, E.
        -- inversion Hhd; subst. constructor. assumption.
Qed.

Lemma order_events_sorted (l : list Event.t) :
  Sorted event_before (Trips.order_events l).
Proof.
  unfold Trips.order_events.
  induction l as [| e l IH]; cbn; [constructor |].
  apply insert_event_sorted, IH.
Qed.

Lemma item_lines_app (a b : list Trips.canvas_op) :
  item_lines (a ++ b) = item_lines a ++ item_lines b.
Proof. apply flat_map_app. Qed.

Lemma draw_line_items (st : list Trips.canvas_op * Q) (line : Trips.text) :
  item_lines (fst (Trips.draw_line st line)) = item_lines (fst st) ++ [line].
Proof.
  destruct st as [ops y]. unfold Trips.draw_line.
  destruct (Trips.Qlt_bool _ _); cbn [fst]; rewrite !item_lines_app;
    cbn; rewrite ?app_nil_r; reflexivity.
Qed.

Lemma draw_lines_items (lines : list Trips.text) :
  forall st,
    item_lines (fst (fold_left Trips.draw_line lines st))
    = item_lines (fst st) ++ lines.
Proof.
  induction lines as [| line lines IH]; intros st; cbn [fold_left].
  - rewrite app_nil_r. reflexivity.
  - rewrite IH, draw_line_items, <- app_assoc. reflexivity.
Qed.

(** X19: the item lines of the export, in drawing order, are the lines of
    the trip's events sorted by date and then start time (an event without
    a start time first among those of its date), then one line per
    envelope of the trip in storage order, then one line per alert of the
    trip; no event is lost or repeated by the ordering. *)
Theorem export_lists_items_in_order (db : Db) (trip_id : Z) (trip : Trip.t)
    (u : User.t) :
  Trips._get_trip_or_404 db trip_id = Return trip ->
  may_read db trip u ->
  exists resp ordered,
    Trips.export_trip_pdf trip_id u db = (Return resp, db)
    /\ item_lines (Trips.body resp)
       = map Trips.event_line ordered
         ++ map (Trips.budget_line
                   (filter (fun e => Expense.trip_id e =? trip_id)
                      (expenses db)))
              (of_trip_envelopes db trip_id)
         ++ map Trips.alert_line (of_trip_alerts db trip_id)
    /\ Permutation ordered (of_trip_events db trip_id)
    /\ Sorted event_before ordered.
Proof.
  intros Htrip Hread.
  exists (Trips.render db trip_id trip).
  exists (Trips.order_events (of_trip_events db trip_id)).
  split.
  { unfold Trips.export_trip_pdf, h_read. rewrite Htrip. cbn [py_bind].
    rewrite (ensure_member_or_owner_ok _ _ _ Hread). reflexivity. }
  split; [| split; [apply order_events_perm | apply order_events_sorted]].
  unfold Trips.render, of_trip_events, of_trip_envelopes, of_trip_alerts.
  match goal with
  | |- context [fold_left Trips.draw_line (map Trips.event_line ?evs) ?st] =>
      pose proof (draw_lines_items (map Trips.event_line evs) st) as I1;
      destruct (fold_left Trips.draw_line (map Trips.event_line evs) st)
        as [p1 y1]
  end.
  match goal with
  | |- context [fold_left Trips.draw_line
                  (map (Trips.budget_line ?exps) ?envs) ?st] =>
      pose proof (draw_lines_items (map (Trips.budget_line exps) envs) st)
        as I2;
      destruct (fold_left Trips.draw_line
                  (map (Trips.budget_line exps) envs) st) as [p2 y2]
  end.
  cbn [fst] in I1, I2.
  rewrite !item_lines_app in I1. cbn in I1. rewrite ?app_nil_r in I1.
  cbn [app] in I1.
  rewrite !item_lines_app, I1 in I2. cbn in I2. rewrite ?app_nil_r in I2.
  destruct (filter _ (weather_alerts db)) as [| a alerts].
  - cbn [Trips.body]. rewrite item_lines_app, I2. cbn.
    rewrite ?app_nil_r. reflexivity.
  - match goal with
    | |- context [fold_left Trips.draw_line ?ls ?st] =>
        pose proof (draw_lines_items ls st) as I3;
        destruct (fold_left Trips.draw_line ls st) as [p3 y3]
    end.
    cbn [fst] in I3. rewrite !item_lines_app, I2 in I3. cbn in I3.
    rewrite ?app_nil_r in I3.
    cbn [Trips.body]. rewrite item_lines_app, I3. cbn.
    rewrite ?app_nil_r, <- ?app_assoc. reflexivity.
Qed.

Lemma export_lists_items_in_order_witness :
  exists resp,
    Trips.export_trip_pdf 1 bob sample_db = (Return resp, sample_db)
    /\ List.length (item_lines (Trips.body resp)) = 4%nat.
Proof.
  assert (Hbob : may_read sample_db trip1 bob).
  { right. exists (TripMember.mk 1 1 2 "viewer"). cbn. auto. }
  destruct (export_lists_items_in_order sample_db 1 trip1 bob eq_refl Hbob)
    as (resp & ordered & Hrun & Hlines & Hperm & _).
  exists resp. split; [exact Hrun |].
  rewrite Hlines, !length_app, !length_map.
  rewrite (Permutation_length Hperm). reflexivity.
Defined.
